(** * mempool-archiver: loader, merger and latency analyzer

    A shallow embedding of the Go sources
      - [common/types.go]            (summary record, CSV loaders, [parseTx]),
      - [cmd/merge/transactions.go]  ([mergeTransactions]),
      - the analyzer                 ([latencyComp]),
    followed by the properties of the written specification that concern
    them.

    Conventions.
      - Go [string]s are byte strings: [string] of Stdlib, one [ascii] per byte.
      - [int64] values are [Z]; where the code does arithmetic on them the
        wrap-around is written out ([wrap64]).
      - A Go [map[string]V] is a [gmap string V]; a [range] over a map
        visits the entries in an order chosen by the runtime, see
        [GoRuntime].
      - A Go result [(v, err)] is a sum [error + V].
      - Log calls have no effect on the results and are left out; the branch
        a CSV line takes is kept as a [LineOutcome]. *)

From Stdlib Require Import ZArith NArith String Ascii DecimalString.
From stdpp Require Import gmap strings list fin_maps sorting.

Open Scope string_scope.
Open Scope list_scope.
Open Scope Z_scope.

(** ** Go runtime and standard library *)

Definition error := string.

Module Go.

(** [int64] wrap-around (two's complement). *)
Definition wrap64 (z : Z) : Z := (z + 2 ^ 63) mod 2 ^ 64 - 2 ^ 63.

Definition sub64 (a b : Z) : Z := wrap64 (a - b).
Definition neg64 (a : Z) : Z := wrap64 (- a).

Definition inInt64 (z : Z) : bool := (- 2 ^ 63 <=? z) && (z <? 2 ^ 63).

(** [fmt.Sprint] of an integer and [String] of a [big.Int]: base 10. *)
Definition itoa (z : Z) : string := NilZero.string_of_int (Z.to_int z).

Definition newline : ascii := ascii_of_N 10.
Definition comma : ascii := ascii_of_N 44.

(** [strings.ToLower], on the ASCII range (hashes and addresses are
    ASCII; other bytes are kept). *)
Definition lowerByte (c : ascii) : ascii :=
  let n := N_of_ascii c in
  if ((65 <=? n) && (n <=? 90))%N then ascii_of_N (n + 32) else c.

Fixpoint ToLower (s : string) : string :=
  match s with
  | EmptyString => EmptyString
  | String c r => String (lowerByte c) (ToLower r)
  end.

(** [strings.Trim(s, cutset)] for a one-byte cutset. *)
Fixpoint TrimLeft (c : ascii) (s : string) : string :=
  match s with
  | String a r => if Ascii.eqb a c then TrimLeft c r else s
  | EmptyString => EmptyString
  end.

Fixpoint TrimRight (c : ascii) (s : string) : string :=
  match s with
  | EmptyString => EmptyString
  | String a r =>
      match TrimRight c r with
      | EmptyString => if Ascii.eqb a c then EmptyString else String a EmptyString
      | r' => String a r'
      end
  end.

Definition Trim (c : ascii) (s : string) : string := TrimRight c (TrimLeft c s).

(** [strings.Split(s, sep)] for a one-byte separator: the fields between
    the separators, empty fields included; never the empty list. *)
Fixpoint Split (sep : ascii) (s : string) : list string :=
  match s with
  | EmptyString => [EmptyString]
  | String a r =>
      if Ascii.eqb a sep then EmptyString :: Split sep r
      else match Split sep r with
           | f :: fs => String a f :: fs
           | [] => [String a EmptyString]
           end
  end.

(** The chunks successive [bufio.Reader.ReadString(delim)] calls return
    until the end of the input: each chunk keeps its delimiter, the last
    one has none when the input does not end with it. *)
Fixpoint ReadStrings (delim : ascii) (s : string) : list string :=
  match s with
  | EmptyString => []
  | String a r =>
      if Ascii.eqb a delim then String a EmptyString :: ReadStrings delim r
      else match ReadStrings delim r with
           | l :: ls => String a l :: ls
           | [] => [String a EmptyString]
           end
  end.

(** [strconv.Atoi]: optional sign, then one or more decimal digits; an
    error (here [None]) on anything else and on values outside [int]
    (64 bits). *)
Definition digitOf (c : ascii) : option Z :=
  let n := N_of_ascii c in
  if ((48 <=? n) && (n <=? 57))%N then Some (Z.of_N n - 48) else None.

Fixpoint digits (acc : Z) (s : string) : option Z :=
  match s with
  | EmptyString => Some acc
  | String c r =>
      match digitOf c with
      | Some d => digits (10 * acc + d) r
      | None => None
      end
  end.

Definition unsignedDigits (s : string) : option Z :=
  match s with
  | EmptyString => None
  | _ => digits 0 s
  end.

Definition Atoi (s : string) : option Z :=
  let signed :=
    match s with
    | String c r =>
        if Ascii.eqb c "-" then Z.opp <$> unsignedDigits r
        else if Ascii.eqb c "+" then unsignedDigits r
        else unsignedDigits s
    | EmptyString => None
    end in
  match signed with
  | Some z => if inInt64 z then Some z else None
  | None => None
  end.

(** [encoding/csv]: the records [Reader.ReadAll] parses out of a file's
    content, or its error. *)
Class Csv := { ReadAll : string → error + list (list string) }.

(** A map read [m[k]] yields the zero value for an absent key. *)
Definition getInt (m : gmap string Z) (k : string) : Z := default 0 (m !! k).
Definition getBool (m : gmap string bool) (k : string) : bool := default false (m !! k).

End Go.

(** The part of the Go runtime the results depend on but the language
    leaves open: the order in which [range] visits a map, and which sorted
    permutation [sort.Slice] produces (the sort is not guaranteed to be
    stable). Both comparison functions in the sources order by an [int64]
    key with [<]. *)
Record GoRuntime := {
  mapRange : ∀ V : Type, gmap string V → list (string * V);
  mapRange_perm : ∀ V (m : gmap string V), mapRange V m ≡ₚ map_to_list m;
  sortSlice : ∀ A : Type, (A → Z) → list A → list A;
  sortSlice_perm : ∀ A (key : A → Z) (l : list A), sortSlice A key l ≡ₚ l;
  sortSlice_sorted : ∀ A (key : A → Z) (l : list A),
    StronglySorted (λ x y, key x ≤ key y) (sortSlice A key l);
}.
Arguments mapRange _ {V} _.
Arguments sortSlice _ {A} _ _.

(** ** go-ethereum: addresses, hashes, decoded transactions *)

Module Eth.

Definition Address := list Byte.byte. (* [20]byte *)
Definition Hash := list Byte.byte.    (* [32]byte *)

(** [common.Address{}], the zero value. *)
Definition zeroAddress : Address := replicate 20 Byte.x00.

Definition hexDigit (n : N) : ascii :=
  if (n <? 10)%N then ascii_of_N (48 + n) else ascii_of_N (87 + n).

Definition hexOfByte (b : Byte.byte) : list ascii :=
  let n := Byte.to_N b in [hexDigit (n / 16); hexDigit (n mod 16)].

Definition hexChars (bs : list Byte.byte) : list ascii := flat_map hexOfByte bs.

(** [hexutil.Encode]: [0x] and the lower-case hex digits. *)
Definition Encode (bs : list Byte.byte) : string :=
  String "0" (String "x" (string_of_list_ascii (hexChars bs))).

(** A decoded transaction, as seen through the accessors [parseTx]
    calls. [big.Int] results are [Z], [uint64] results are [N]. *)
Record Transaction := {
  tx_Hash : Hash;
  tx_ChainId : Z;
  tx_To : option Address;
  tx_Value : Z;
  tx_Nonce : N;
  tx_Gas : N;
  tx_GasPrice : Z;
  tx_GasTipCap : Z;
  tx_GasFeeCap : Z;
  tx_Data : list Byte.byte;
}.

(** What the sources take from outside: the Keccak-256 digest, the
    decoder of a raw signed transaction ([RLPStringToTx], hex string to
    [types.Transaction]), and the signature recovery of the signer
    [types.LatestSignerForChainID(tx.ChainId())]. *)
Class Lib := {
  keccak256 : list Byte.byte → list Byte.byte;
  RLPStringToTx : string → error + Transaction;
  signerSender : Transaction → error + Address;
}.

Section WithLib.
Context `{L : Lib}.

(** [types.Sender]: the recovered address, or the zero address together
    with the error. *)
Definition Sender (tx : Transaction) : Address * option error :=
  match signerSender tx with
  | inl err => (zeroAddress, Some err)
  | inr addr => (addr, None)
  end.

(** [Address.Hex]: the EIP-55 rendering; a hex letter is upper-cased
    when the matching nibble of the digest of the lower-case digits is
    above 7. *)
Definition checksumChar (hash : list Byte.byte) (i : nat) (c : ascii) : ascii :=
  let hashByte := Byte.to_N (nth (i / 2)%nat hash Byte.x00) in
  let nibble := if Nat.even i then N.shiftr hashByte 4 else N.land hashByte 15 in
  if (57 <? N_of_ascii c)%N && (7 <? nibble)%N
  then ascii_of_N (N_of_ascii c - 32) else c.

Definition AddressHex (a : Address) : string :=
  let buf := hexChars a in
  let hash := keccak256 (byte_of_ascii <$> buf) in
  String "0" (String "x" (string_of_list_ascii (imap (checksumChar hash) buf))).

(** [Hash.Hex]. *)
Definition HashHex (h : Hash) : string := Encode h.
End WithLib.

End Eth.

(** ** Package common *)

Module Common.
Import Go Eth.

(** [TxSummaryEntry]: one row of the summary CSV and of the Parquet file. *)
Record TxSummaryEntry := {
  Timestamp : Z;
  Hash : string;
  ChainID : string;
  From : string;
  To : string;
  Value : string;
  Nonce : string;
  Gas : string;
  GasPrice : string;
  GasTipCap : string;
  GasFeeCap : string;
  DataSize : Z;
  Data4Bytes : string;
}.

Record TxEnvelope := {
  Rlp : string;
  Summary : TxSummaryEntry;
}.

(** [txs[h].Summary.Timestamp = ts] *)
Definition setTimestamp (ts : Z) (e : TxEnvelope) : TxEnvelope :=
  let s := Summary e in
  {| Rlp := Rlp e;
     Summary := {| Timestamp := ts; Hash := Hash s; ChainID := ChainID s;
                   From := From s; To := To s; Value := Value s;
                   Nonce := Nonce s; Gas := Gas s; GasPrice := GasPrice s;
                   GasTipCap := GasTipCap s; GasFeeCap := GasFeeCap s;
                   DataSize := DataSize s; Data4Bytes := Data4Bytes s |} |}.

Definition ToCSVRow (t : TxSummaryEntry) : list string :=
  [ itoa (Timestamp t); Hash t; ChainID t; From t; To t; Value t; Nonce t;
    Gas t; GasPrice t; GasTipCap t; GasFeeCap t; itoa (DataSize t);
    Data4Bytes t ].

Definition TxSummaryEntryCSVHeader : list string :=
  [ "timestamp_ms"; "hash"; "chain_id"; "from"; "to"; "value"; "nonce";
    "gas"; "gas_price"; "gas_tip_cap"; "gas_fee_cap"; "data_size";
    "data_4bytes" ].

Section WithLib.
Context `{L : Lib} `{C : Csv}.

Definition toOf (tx : Transaction) : string :=
  match tx_To tx with
  | Some a => AddressHex a
  | None => ""
  end.

Definition data4BytesOf (tx : Transaction) : string :=
  if (4 <=? length (tx_Data tx))%nat then Encode (take 4 (tx_Data tx)) else "".

Definition parseTx (timestampMs : Z) (hash rawTx : string)
  : error + (TxSummaryEntry * Transaction) :=
  match RLPStringToTx rawTx with
  | inl err => inl err
  | inr tx =>
      let '(from, _) := Sender tx in
      let to := toOf tx in
      let data4Bytes := data4BytesOf tx in
      inr ({| Timestamp := timestampMs;
              Hash := HashHex (tx_Hash tx);
              ChainID := itoa (tx_ChainId tx);
              From := AddressHex from;
              To := to;
              Value := itoa (tx_Value tx);
              Nonce := itoa (Z.of_N (tx_Nonce tx));
              Gas := itoa (Z.of_N (tx_Gas tx));
              GasPrice := itoa (tx_GasPrice tx);
              GasTipCap := itoa (tx_GasTipCap tx);
              GasFeeCap := itoa (tx_GasFeeCap tx);
              DataSize := Z.of_nat (length (tx_Data tx));
              Data4Bytes := data4Bytes |}, tx)
  end.

(** *** The file system the loaders read

    A path holds a directory or a regular file; [os.Open] fails on a
    path that is absent and on a file the process may not read. Opening
    a directory succeeds and every read from it fails. *)
Inductive Node :=
| Dir
| File (openable : bool) (content : string).

Definition osOpen (fs : gmap string Node) (filename : string) : error + Node :=
  match fs !! filename with
  | None => inl "no such file or directory"
  | Some (File false _) => inl "permission denied"
  | Some n => inr n
  end.

(** The lines the [ReadString] loop of [LoadTransactionCSVFiles] sees
    in an opened file; on a directory the first read fails with an
    empty chunk and the loop ends. *)
Definition fileLines (n : Node) : list string :=
  match n with
  | Dir => []
  | File _ content => ReadStrings newline content
  end.

(** [csv.NewReader(f).ReadAll()]; [ReadAll] is the parser of
    encoding/csv on the content. *)
Definition csvReadAll (n : Node) : error + list (list string) :=
  match n with
  | Dir => inl "read: is a directory"
  | File _ content => ReadAll content
  end.

(** *** LoadTxHashesFromMetadataCSVFiles *)

Definition addRecord (txs : gmap string bool) (record : list string)
  : gmap string bool :=
  match record with
  | _ :: h :: _ => <[ToLower h := true]> txs
  | _ => txs
  end.

Fixpoint loadTxHashes (fs : gmap string Node) (files : list string)
    (txs : gmap string bool) : gmap string bool :=
  match files with
  | [] => txs
  | filename :: rest =>
      match osOpen fs filename with
      | inl _ => txs                       (* log, return *)
      | inr f =>
          match csvReadAll f with
          | inl _ => txs                   (* log, return *)
          | inr records => loadTxHashes fs rest (foldl addRecord txs records)
          end
      end
  end.

Definition LoadTxHashesFromMetadataCSVFiles (fs : gmap string Node)
    (files : list string) : gmap string bool :=
  loadTxHashes fs files ∅.

(** *** LoadTransactionCSVFiles *)

(** The branch one line takes through the loop body. *)
Inductive LineOutcome :=
| ShortLine        (* len(l) < 66: continue *)
| InvalidLine      (* field count is not 3 *)
| BadTimestamp     (* strconv.Atoi failed *)
| KnownTx          (* hash is in prevKnownTxs *)
| DuplicateTx      (* hash already in txs; timestamp lowered if smaller *)
| ParseError       (* parseTx failed *)
| NewTx.           (* stored *)

Definition processFields (prevKnownTxs : gmap string bool)
    (txs : gmap string TxEnvelope) (items : list string)
  : gmap string TxEnvelope * LineOutcome :=
  match items with
  | [i0; i1; i2] =>
      match Atoi i0 with
      | None => (txs, BadTimestamp)
      | Some txTimestamp =>
          let txHash := ToLower i1 in
          if getBool prevKnownTxs txHash then (txs, KnownTx)
          else match txs !! txHash with
               | Some e =>
                   (if txTimestamp <? Timestamp (Summary e)
                    then <[txHash := setTimestamp txTimestamp e]> txs
                    else txs, DuplicateTx)
               | None =>
                   match parseTx txTimestamp txHash i2 with
                   | inl _ => (txs, ParseError)
                   | inr (txSummary, _) =>
                       (<[txHash := {| Rlp := i2; Summary := txSummary |}]> txs,
                        NewTx)
                   end
               end
      end
  | _ => (txs, InvalidLine)
  end.

(** One iteration of the read loop on the chunk [l] that [ReadString]
    returned (line terminator included). *)
Definition processLine (prevKnownTxs : gmap string bool)
    (txs : gmap string TxEnvelope) (l : string)
  : gmap string TxEnvelope * LineOutcome :=
  if (String.length l <? 66)%nat then (txs, ShortLine)
  else processFields prevKnownTxs txs (Split comma (Trim newline l)).

Definition loadLines (prevKnownTxs : gmap string bool)
    (txs : gmap string TxEnvelope) (lines : list string)
  : gmap string TxEnvelope :=
  foldl (λ acc l, fst (processLine prevKnownTxs acc l)) txs lines.

Fixpoint loadTxFiles (fs : gmap string Node) (prevKnownTxs : gmap string bool)
    (files : list string) (txs : gmap string TxEnvelope)
  : gmap string TxEnvelope :=
  match files with
  | [] => txs
  | filename :: rest =>
      match osOpen fs filename with
      | inl _ => txs                       (* log, return *)
      | inr f => loadTxFiles fs prevKnownTxs rest
                   (loadLines prevKnownTxs txs (fileLines f))
      end
  end.

Definition LoadTransactionCSVFiles (fs : gmap string Node)
    (files knownTxsFiles : list string) : gmap string TxEnvelope :=
  let prevKnownTxs := LoadTxHashesFromMetadataCSVFiles fs knownTxsFiles in
  loadTxFiles fs prevKnownTxs files ∅.
End WithLib.

End Common.

(** ** The entries the merger and the analyzer work on *)

Module Entry.
Import Go Common.

(** Modelled from the spec: the declaration of the enriched entry is not
    part of the sources at hand. The merger and the analyzer read, next to
    the summary fields and the raw transaction of the loaded envelope, the
    fields [Sources] (source tags), [IncludedAtBlockHeight] (0 = not
    included), [IncludedBlockTimestamp] and [InclusionDelayMs]. *)
Record TxEntry := {
  Tx : TxEnvelope;
  Sources : list string;
  IncludedAtBlockHeight : Z;
  IncludedBlockTimestamp : Z;
  InclusionDelayMs : Z;
}.

Definition EntryTimestamp (e : TxEntry) : Z := Timestamp (Summary (Tx e)).
Definition EntryHash (e : TxEntry) : string := Hash (Summary (Tx e)).

(** A loaded envelope before enrichment: the added fields hold Go's zero
    values. *)
Definition ofEnvelope (e : TxEnvelope) : TxEntry :=
  {| Tx := e; Sources := []; IncludedAtBlockHeight := 0;
     IncludedBlockTimestamp := 0; InclusionDelayMs := 0 |}.

(** [tx.Sources = sources] *)
Definition setSources (sources : list string) (e : TxEntry) : TxEntry :=
  {| Tx := Tx e; Sources := sources;
     IncludedAtBlockHeight := IncludedAtBlockHeight e;
     IncludedBlockTimestamp := IncludedBlockTimestamp e;
     InclusionDelayMs := InclusionDelayMs e |}.

(** Modelled from the spec: [HasSource], a method of the entry that is not
    part of the sources at hand; true when the tag is one of the entry's
    sources. *)
Definition HasSource (e : TxEntry) (src : string) : bool :=
  bool_decide (src ∈ Sources e).

(** Modelled from the spec: [RawTxHex], a method of the entry that is not
    part of the sources at hand; the raw transaction as the hex text the
    transactions CSV carries. *)
Definition RawTxHex (e : TxEntry) : string := Rlp (Tx e).

End Entry.

(** ** cmd/merge: mergeTransactions *)

Module Merge.
Import Go Eth Common Entry.

(** The command line of one run. *)
Record Config := {
  outDir : string;
  fnPrefix : string;
  knownTxsFiles : list string;   (* --tx-blacklist *)
  sourcelogFiles : list string;  (* --sourcelog *)
  writeTxCSV : bool;             (* --write-tx-csv *)
  checkNodeURI : string;         (* --check-node *)
  inputFiles : list string;      (* positional arguments *)
}.

(** Code of the repository the merger calls and that is not part of the
    sources at hand, taken as parameters: the sourcelog loader (its error
    result is dropped by the caller), the connection to the check node and
    the per-entry inclusion probe (its error is only logged).

    [LoadTransactionsError] is the error result of the loader: the
    merger calls [common.LoadTransactionCSVFiles] with an error result and
    ends the run on it ([check(err, ...)]), and the loader of the sources
    at hand returns the map only. When and whether the loader the merger
    calls reports an error is left open, it is this parameter; when it
    reports none, the map is the one the loader at hand returns. *)
Class Services := {
  LoadSourcelogFiles : gmap string Node → list string → gmap string (gmap string Z);
  LoadTransactionsError : gmap string Node → list string → list string → option error;
  Dial : string → bool;
  UpdateInclusionStatus : string → TxEntry → TxEntry;
}.

(** Why a run ended in [log.Fatal]. *)
Inductive Fatal :=
| NoInputFiles
| MkdirAllFailed
| OutputExists (fn : string)
| NotAFile (fn : string)
| LoaderFailed (err : error)
| DialFailed.

(** What a finished run wrote: the rows handed to the Parquet writer, the
    lines of the metadata CSV and, with [--write-tx-csv], the lines of the
    transactions CSV. Creating the files succeeds (a failure there is
    fatal in the code, and the paths were checked to be free); a write that
    fails is only logged by the code and is not modelled. *)
Record Output := {
  parquet : list TxEntry;
  metaCSV : list string;
  txCSV : option (list string);
}.

Inductive Result :=
| Aborted (why : Fatal)
| Finished (out : Output).

(** [filepath.Join] of a directory and a file name (path cleaning is not
    modelled). *)
Definition Join (dir name : string) : string :=
  match dir with
  | EmptyString => name
  | _ => dir +:+ "/" +:+ name
  end.

Definition fnParquetTxs (c : Config) : string :=
  match fnPrefix c with
  | EmptyString => Join (outDir c) "transactions.parquet"
  | p => Join (outDir c) (p +:+ ".parquet")
  end.

Definition fnCSVMeta (c : Config) : string :=
  match fnPrefix c with
  | EmptyString => Join (outDir c) "metadata.csv"
  | p => Join (outDir c) (p +:+ ".csv")
  end.

Definition fnCSVTxs (c : Config) : string :=
  match fnPrefix c with
  | EmptyString => Join (outDir c) "transactions.csv"
  | p => Join (outDir c) (p +:+ "_transactions.csv")
  end.

(** [os.MkdirAll]: fails when the path is a file, otherwise the directory
    exists afterwards. *)
Definition MkdirAll (fs : gmap string Node) (dir : string)
  : option (gmap string Node) :=
  match fs !! dir with
  | Some (File _ _) => None
  | _ => Some (<[dir := Dir]> fs)
  end.

(** Modelled from the spec: [common.MustNotExist] is not part of the
    sources at hand; it ends the run when the path exists (the caller:
    ensure output files do not yet exist). [true] when the run goes on. *)
Definition MustNotExist (fs : gmap string Node) (fn : string) : bool :=
  bool_decide (fs !! fn = None).

(** Modelled from the spec: [common.MustBeFile] is not part of the sources
    at hand; it ends the run unless the path is an existing regular file
    (a missing input is fatal). [true] when the run goes on. *)
Definition MustBeFile (fs : gmap string Node) (fn : string) : bool :=
  match fs !! fn with
  | Some (File _ _) => true
  | _ => false
  end.

(** The first path of a list that fails a check. *)
Definition firstFailing (ok : string → bool) (fns : list string) : option string :=
  head (filter (λ fn, ok fn = false) fns).

Definition csvHeader : string := String.concat "," TxSummaryEntryCSVHeader.
Definition txCSVHeader : string := "timestamp_ms,hash,raw_tx".

Definition metaRow (tx : TxEntry) : string :=
  String.concat "," (ToCSVRow (Summary (Tx tx))).

Definition txRow (tx : TxEntry) : string :=
  itoa (EntryTimestamp tx) +:+ "," +:+ EntryHash tx +:+ "," +:+ RawTxHex tx.

(** The three open writers during the write loop. *)
Record Writers := {
  pw : list TxEntry;
  fCSVMeta : list string;
  fCSVTxs : option (list string);
}.

(** One iteration of the write loop. *)
Definition writeEntry (w : Writers) (tx : TxEntry) : Writers :=
  if InclusionDelayMs tx <=? -12000 then w   (* continue *)
  else {| pw := pw w ++ [tx];
          fCSVTxs := (λ ls, ls ++ [txRow tx]) <$> fCSVTxs w;
          fCSVMeta := fCSVMeta w ++ [metaRow tx] |}.

Definition openWriters (writeTxCSV : bool) : Writers :=
  {| pw := [];
     fCSVMeta := [csvHeader];
     fCSVTxs := if writeTxCSV then Some [txCSVHeader] else None |}.

Definition closeWriters (w : Writers) : Output :=
  {| parquet := pw w; metaCSV := fCSVMeta w; txCSV := fCSVTxs w |}.

(** The order the slice is sorted by. *)
Definition byTimestamp : relation TxEntry :=
  λ x y, EntryTimestamp x ≤ EntryTimestamp y.

(** The entries the write loop does not skip. *)
Definition kept (tx : TxEntry) : Prop := -12000 < InclusionDelayMs tx.

#[global] Instance kept_dec tx : Decision (kept tx) := Z.lt_dec _ _.

Section WithWorld.
Context (rt : GoRuntime) `{L : Lib} `{C : Csv} `{S : Services}.

(** The sources of one hash, in order of the timestamps the sourcelog
    has for them. *)
Definition sourcesOf (sourcelog : gmap string (gmap string Z)) (hash : string)
  : list string :=
  let txSources := mapRange rt (default ∅ (sourcelog !! hash)) in
  fst <$> sortSlice rt snd txSources.

Definition updateSources (sourcelog : gmap string (gmap string Z))
    (txs : gmap string TxEntry) : gmap string TxEntry :=
  map_imap (λ hash tx, Some (setSources (sourcesOf sourcelog hash) tx)) txs.

(** [updateInclusionStatus]: every worker dials the check node and the
    entries are probed one by one, each by one worker; the results do
    not depend on which worker takes which entry. [None] when the dial
    fails ([log.Fatal]). *)
Definition updateInclusionStatus (uri : string) (txs : gmap string TxEntry)
  : option (gmap string TxEntry) :=
  if Dial uri then Some (UpdateInclusionStatus uri <$> txs) else None.

(** The slice of all entries, sorted by timestamp. *)
Definition sortedSlice (txs : gmap string TxEntry) : list TxEntry :=
  sortSlice rt EntryTimestamp (snd <$> mapRange rt txs).

Definition writeOutput (writeTxCSV : bool) (txsSlice : list TxEntry) : Output :=
  closeWriters (foldl writeEntry (openWriters writeTxCSV) txsSlice).

Definition mergeTransactions (c : Config) (fs : gmap string Node) : Result :=
  match inputFiles c with
  | [] => Aborted NoInputFiles
  | _ =>
  match MkdirAll fs (outDir c) with
  | None => Aborted MkdirAllFailed
  | Some fs =>
  match firstFailing (MustNotExist fs) [fnParquetTxs c; fnCSVMeta c; fnCSVTxs c] with
  | Some fn => Aborted (OutputExists fn)
  | None =>
  match firstFailing (MustBeFile fs) (inputFiles c ++ sourcelogFiles c) with
  | Some fn => Aborted (NotAFile fn)
  | None =>
  match LoadTransactionsError fs (inputFiles c) (knownTxsFiles c) with
  | Some err => Aborted (LoaderFailed err)       (* check(err, ...) *)
  | None =>
      let txs := ofEnvelope <$> LoadTransactionCSVFiles fs (inputFiles c) (knownTxsFiles c) in
      let sourcelog := LoadSourcelogFiles fs (sourcelogFiles c) in
      let txs := updateSources sourcelog txs in
      match updateInclusionStatus (checkNodeURI c) txs with
      | None => Aborted DialFailed
      | Some txs => Finished (writeOutput (writeTxCSV c) (sortedSlice txs))
      end
  end end end end end.
End WithWorld.

End Merge.

(** ** The analyzer: latencyComp *)

Module Analyzer.
Import Go Common Entry.

Record Analyzer2Opts := {
  Transactions : gmap string TxEntry;
  Sourelog : gmap string (gmap string Z);   (* [hash][source] = timestampMs *)
}.

(** [hdrhistogram], a library outside the repository, as far as
    [latencyComp] depends on it: which values a histogram made by
    [hdrhistogram.New(1, 5000000, 3)] can record. It is made to track the
    values from 1 to 5000000; what it does with a value outside that
    range is the library's business. *)
Class Hdr := {
  tracks : Z → bool;
  tracks_range : ∀ v, 1 ≤ v ≤ 5000000 → tracks v = true;
}.

(** A histogram is kept as the values it recorded, in call order (how
    the library buckets them is not modelled). [RecordValue] returns an
    error for a value the histogram cannot record and leaves the
    histogram as it is; [latencyComp] drops that error
    ([//nolint:errcheck]). *)
Definition Histogram := list Z.
Definition New : Histogram := [].
Definition RecordValue `{Hdr} (h : Histogram) (v : Z) : Histogram :=
  if tracks v then h ++ [v] else h.

Definition seenBy (sources : gmap string Z) (s : string) : bool :=
  bool_decide (is_Some (sources !! s)).

(** Step 1: one iteration over the transactions. *)
Definition collectShared (src ref : string)
    (txHashes : gmap string (gmap string Z)) (kv : string * TxEntry)
  : gmap string (gmap string Z) :=
  let txHashLower := ToLower kv.1 in
  let tx := kv.2 in
  if (length (Sources tx) =? 1)%nat then txHashes
  else if IncludedAtBlockHeight tx =? 0 then txHashes
  else if negb (HasSource tx src) || negb (HasSource tx ref) then txHashes
  else <[txHashLower := ∅]> txHashes.

(** [if m[k] == 0 || ts < m[k] { m[k] = ts }] *)
Definition lowerTo (m : gmap string Z) (k : string) (ts : Z) : gmap string Z :=
  if (getInt m k =? 0) || (ts <? getInt m k) then <[k := ts]> m else m.

(** Step 2: one iteration over the sourcelog. *)
Definition firstTimestamps (src ref : string)
    (txHashes : gmap string (gmap string Z)) (kv : string * gmap string Z)
  : gmap string (gmap string Z) :=
  let txHashLower := ToLower kv.1 in
  let sources := kv.2 in
  match txHashes !! txHashLower with
  | None => txHashes
  | Some seen =>
      if negb (seenBy sources src) || negb (seenBy sources ref) then txHashes
      else
        let seen := lowerTo seen src (getInt sources src) in
        let seen := lowerTo seen ref (getInt sources ref) in
        <[txHashLower := seen]> txHashes
  end.

(** Step 3: one iteration over the collected hashes. *)
Definition findBucket `{Hdr} (src ref : string) (hs : Histogram * Histogram)
    (kv : string * gmap string Z) : Histogram * Histogram :=
  let sources := kv.2 in
  let srcTS := getInt sources src in
  let localTS := getInt sources ref in
  let diff := sub64 localTS srcTS in
  if diff =? 0 then hs
  else if 0 <? diff then (RecordValue hs.1 diff, hs.2)
  else (hs.1, RecordValue hs.2 (neg64 diff)).

Section WithRuntime.
Context (rt : GoRuntime) `{H : Hdr}.

Definition latencyComp (a : Analyzer2Opts) (src ref : string)
  : Histogram * Histogram * nat :=
  let txHashes := foldl (collectShared src ref) ∅ (mapRange rt (Transactions a)) in
  let txHashes := foldl (firstTimestamps src ref) txHashes (mapRange rt (Sourelog a)) in
  let '(srcH, refH) := foldl (findBucket src ref) (New, New) (mapRange rt txHashes) in
  (srcH, refH, size txHashes).
End WithRuntime.

End Analyzer.

(** ** Instances to run the model on concrete inputs *)

Module Demo.
Import Go Eth Common Entry Merge Analyzer.

Definition byKey {A} (key : A → Z) : relation A := λ x y, key x ≤ key y.

#[local] Instance byKey_dec {A} (key : A → Z) x y : Decision (byKey key x y) :=
  Z.le_dec (key x) (key y).
#[local] Instance byKey_trans {A} (key : A → Z) : Transitive (byKey key) :=
  λ x y z, Z.le_trans (key x) (key y) (key z).
#[local] Instance byKey_total {A} (key : A → Z) : Total (byKey key) :=
  λ x y, Z.le_ge_cases (key x) (key y).

(** A runtime whose [range] visits the keys in the order of
    [map_to_list] and whose sort keeps entries with equal keys in their
    input order (as the insertion sort does that [sort.Slice] runs on
    slices of at most 12 elements). *)
Definition ascending : GoRuntime :=
  {| mapRange := λ V m, map_to_list m;
     mapRange_perm := λ V m, reflexivity (R := Permutation) _;
     sortSlice := λ A key l, merge_sort (byKey key) l;
     sortSlice_perm := λ A key l, merge_sort_Permutation (byKey key) l;
     sortSlice_sorted := λ A key l,
       StronglySorted_merge_sort (byKey key) l |}.

(** The same with [range] visiting the keys in the opposite order. *)
Definition descending : GoRuntime :=
  {| mapRange := λ V m, reverse (map_to_list m);
     mapRange_perm := λ V m, reverse_Permutation (map_to_list m);
     sortSlice := λ A key l, merge_sort (byKey key) l;
     sortSlice_perm := λ A key l, merge_sort_Permutation (byKey key) l;
     sortSlice_sorted := λ A key l,
       StronglySorted_merge_sort (byKey key) l |}.

(** Two decoded transactions: a transfer and a contract creation. *)
Definition txA : Transaction :=
  {| tx_Hash := replicate 32 Byte.xaa; tx_ChainId := 1;
     tx_To := Some (replicate 20 Byte.x11); tx_Value := 1000; tx_Nonce := 7;
     tx_Gas := 21000; tx_GasPrice := 30; tx_GasTipCap := 2; tx_GasFeeCap := 30;
     tx_Data := [Byte.xa9; Byte.x05; Byte.x9c; Byte.xbb; Byte.x00] |}.

Definition txB : Transaction :=
  {| tx_Hash := replicate 32 Byte.xbb; tx_ChainId := 1;
     tx_To := None; tx_Value := 0; tx_Nonce := 0;
     tx_Gas := 90000; tx_GasPrice := 25; tx_GasTipCap := 1; tx_GasFeeCap := 25;
     tx_Data := [] |}.

Definition rawA : string := "0x02aa".
Definition rawB : string := "0x02bb".

(** A decoder that knows [rawA] and [rawB] and rejects every other text,
    a recovery that succeeds on [txB] only, and a constant digest. *)
Definition lib : Lib :=
  {| keccak256 := λ _, replicate 32 Byte.x00;
     RLPStringToTx := λ raw,
       if String.eqb raw rawA then inr txA
       else if String.eqb raw rawB then inr txB
       else inl "rlp: decoding failed";
     signerSender := λ tx,
       match tx_To tx with
       | None => inr (replicate 20 Byte.x22)
       | Some _ => inl "invalid transaction v, r, s values"
       end |}.

(** [encoding/csv] on contents without quotes and carriage returns: one
    record per non-empty line, all records with as many fields as the
    first. *)
Definition records (content : string) : list (list string) :=
  Split comma <$> filter (λ l, l ≠ "") (Trim newline <$> ReadStrings newline content).

Definition csv : Csv :=
  {| ReadAll := λ content,
       let rs := records content in
       match rs with
       | [] => inr []
       | r :: _ =>
           if forallb (λ r', (length r' =? length r)%nat) rs then inr rs
           else inl "record on line: wrong number of fields"
       end |}.

(** A loader that reports the error of the first input file it cannot
    open, and no other error. *)
Definition openError (fs : gmap string Node) (files knownTxsFiles : list string)
  : option error :=
  head (omap (λ f, match osOpen fs f with
                   | inl err => Some err
                   | inr _ => None
                   end) files).

(** No sourcelog, a check node that answers, a probe that finds nothing. *)
Definition services : Services :=
  {| LoadSourcelogFiles := λ _ _, ∅;
     LoadTransactionsError := openError;
     Dial := λ _, true;
     UpdateInclusionStatus := λ _ e, e |}.

(** [hdrhistogram-go]: the counts of [New(1, 5000000, 3)] cover the
    values below 2^23 = 8388608; [RecordValue] fails on the others. *)
Definition hdr : Hdr :=
  {| tracks := λ v, (0 <=? v) && (v <? 8388608);
     tracks_range := λ v Hv,
       andb_true_intro
         (conj (proj2 (Z.leb_le 0 v) (Z.le_trans 0 1 v (Z.le_0_1) (proj1 Hv)))
               (proj2 (Z.ltb_lt v 8388608)
                  (Z.le_lt_trans v 5000000 8388608 (proj2 Hv) eq_refl))) |}.

(** The hashes of [txA] and [txB], as the hash column carries them. *)
Definition H1 : string :=
  "0xaaaaaaaaaaaaaaaaaaaaaaaaaaaaaaaaaaaaaaaaaaaaaaaaaaaaaaaaaaaaaaaa".
Definition H2 : string :=
  "0xbbbbbbbbbbbbbbbbbbbbbbbbbbbbbbbbbbbbbbbbbbbbbbbbbbbbbbbbbbbbbbbb".

(** One line of a transactions CSV. *)
Definition line (ts hash raw : string) : string :=
  ts +:+ "," +:+ hash +:+ "," +:+ raw +:+ String newline "".

Definition file (lines : list string) : Node := File true (String.concat "" lines).

(** A probe that finds every transaction in block 1, whose timestamp is
    85 s; the delay follows the rule of the data model,
    [included_block_timestamp * 1000 - timestamp_ms]. *)
Definition included : Services :=
  {| LoadSourcelogFiles := λ _ _, ∅;
     LoadTransactionsError := openError;
     Dial := λ _, true;
     UpdateInclusionStatus := λ _ e,
       {| Tx := Tx e; Sources := Sources e; IncludedAtBlockHeight := 1;
          IncludedBlockTimestamp := 85;
          InclusionDelayMs := 85 * 1000 - EntryTimestamp e |} |}.

(** *** Inputs of the loader *)

(** Two lines with the hash [H1]: the first decodes, the second does not
    and carries the smaller timestamp. *)
Definition goodThenBad : gmap string Node :=
  {[ "in.csv" := file [line "1000" H1 rawA; line "500" H1 "0xzz"] ]}.

(** The same lines in the opposite order. *)
Definition badThenGood : gmap string Node :=
  {[ "in.csv" := file [line "500" H1 "0xzz"; line "1000" H1 rawA] ]}.

(** [known.csv] lists [H1] in its second column; [in.csv] carries [H1];
    there is no [missing.csv]. *)
Definition knownRow : string := "900," +:+ H1 +:+ ",1" +:+ String newline "".

Definition withBlacklist : gmap string Node :=
  {[ "known.csv" := File true knownRow;
     "in.csv" := file [line "1000" H1 rawA] ]}.

(** A line of 65 bytes that carries a timestamp, a hash column of 53
    bytes and [rawA]. *)
Definition h53 : string :=
  "0xaaaaaaaaaaaaaaaaaaaaaaaaaaaaaaaaaaaaaaaaaaaaaaaaaaa".
Definition line65 : string := "1000," +:+ h53 +:+ "," +:+ rawA.

(** A line of 65 bytes without a comma. *)
Definition noComma65 : string :=
  "0xaaaaaaaaaaaaaaaaaaaaaaaaaaaaaaaaaaaaaaaaaaaaaaaaaaaaaaaaaaaaaaa".

(** A file whose only line is [line65], ended by a newline. *)
Definition with65 : gmap string Node :=
  {[ "in.csv" := File true (line65 +:+ String newline "") ]}.

(** The same line as the last line of a file, without a newline. *)
Definition with65Unterminated : gmap string Node :=
  {[ "in.csv" := File true line65 ]}.

(** *** Runs of the merger *)

Definition run (inputs blacklist : list string) (txCSV : bool) : Config :=
  {| outDir := "out"; fnPrefix := ""; knownTxsFiles := blacklist;
     sourcelogFiles := []; writeTxCSV := txCSV; checkNodeURI := "";
     inputFiles := inputs |}.

(** Timestamp and hash of a written row. *)
Definition row (tx : TxEntry) : Z * string := (EntryTimestamp tx, EntryHash tx).

(** Two transactions first seen at the same millisecond. *)
Definition sameMillisecond : gmap string Node :=
  {[ "in.csv" := file [line "1000" H2 rawB; line "1000" H1 rawA] ]}.

(** Two transactions first seen at different times, the later one first
    in the file. *)
Definition laterFirst : gmap string Node :=
  {[ "in.csv" := file [line "100000" H2 rawB; line "80000" H1 rawA] ]}.

(** An earlier run left its transactions CSV behind. *)
Definition leftOver : gmap string Node :=
  {[ "in.csv" := file [line "1000" H1 rawA];
     "out" := Dir;
     "out/transactions.csv" := File true "timestamp_ms,hash,raw_tx" ]}.

(** [locked.csv] exists and cannot be opened. *)
Definition withLocked : gmap string Node :=
  {[ "in.csv" := file [line "1000" H1 rawA];
     "locked.csv" := File false (line "2000" H2 rawB) ]}.

End Demo.

(** ** Vocabulary of the properties *)

Module Lines.
Import Go Eth Common.

(** What the fields of a chunk say, whatever its length: the chunk
    without its newline, split at the commas, when that gives three fields
    of which the first is a timestamp [Atoi] accepts. The hash is
    lower-cased as the loader does. *)
Definition fieldsOf (l : string) : option (Z * string * string) :=
  match Split comma (Trim newline l) with
  | [i0; i1; i2] =>
      match Atoi i0 with
      | Some ts => Some (ts, ToLower i1, i2)
      | None => None
      end
  | _ => None
  end.

(** What a line says when it passes the checks made before the hash is
    looked up: at least 66 bytes, three fields, a timestamp [Atoi]
    accepts. The hash is lower-cased as the loader does. *)
Definition parseLine (l : string) : option (Z * string * string) :=
  if (String.length l <? 66)%nat then None
  else match Split comma (Trim newline l) with
       | [i0; i1; i2] =>
           match Atoi i0 with
           | Some ts => Some (ts, ToLower i1, i2)
           | None => None
           end
       | _ => None
       end.

(** The occurrences of a hash on such lines, in reading order, each with
    its timestamp and raw transaction. *)
Definition occurrence (h : string) (l : string) : option (Z * string) :=
  match parseLine l with
  | Some (ts, h', raw) => if decide (h' = h) then Some (ts, raw) else None
  | None => None
  end.

Definition occurrences (h : string) (lines : list string) : list (Z * string) :=
  omap (occurrence h) lines.

(** The lines of all files, in reading order (openable files). *)
Definition allLines (fs : gmap string Node) (files : list string) : list string :=
  files ≫= λ f, match osOpen fs f with
                | inr n => fileLines n
                | inl _ => []
                end.

Definition opens (fs : gmap string Node) (f : string) : Prop :=
  ∃ n, osOpen fs f = inr n.

(** A blacklist file that opens and parses. *)
Definition loads `{C : Csv} (fs : gmap string Node) (f : string) : Prop :=
  ∃ n records, osOpen fs f = inr n ∧ csvReadAll n = inr records.

(** The smallest of a timestamp and the timestamps that follow it. *)
Definition minTimestamp (ts0 : Z) (rest : list (Z * string)) : Z :=
  foldl Z.min ts0 rest.*1.

Section WithLib.
Context `{L : Lib}.

Definition decodes (raw : string) : Prop := ∃ tx, RLPStringToTx raw = inr tx.

(** The body of the loop once the line is parsed. *)
Definition storeTx (prevKnownTxs : gmap string bool) (txs : gmap string TxEnvelope)
    (ts : Z) (h raw : string) : gmap string TxEnvelope :=
  if getBool prevKnownTxs h then txs
  else match txs !! h with
       | Some e => if ts <? Timestamp (Summary e)
                   then <[h := setTimestamp ts e]> txs else txs
       | None => match parseTx ts h raw with
                 | inl _ => txs
                 | inr (s, _) => <[h := {| Rlp := raw; Summary := s |}]> txs
                 end
       end.

(** The effect of one occurrence of [h] on the entry of [h]. *)
Definition settle (h : string) (cur : option TxEnvelope) (o : Z * string)
  : option TxEnvelope :=
  match cur with
  | Some e => Some (if o.1 <? Timestamp (Summary e) then setTimestamp o.1 e else e)
  | None => match parseTx o.1 h o.2 with
            | inl _ => None
            | inr (s, _) => Some {| Rlp := o.2; Summary := s |}
            end
  end.
End WithLib.
End Lines.

Module Latency.
Import Go Entry Analyzer.

(** A value the histogram can record. *)
Definition tracked `{Hdr} (v : Z) : Prop := tracks v = true.

#[global] Instance tracked_dec `{Hdr} v : Decision (tracked v) :=
  bool_eq_dec (tracks v) true.

Section Pair.
Context (a : Analyzer2Opts) (src ref : string).

(** Included on-chain, with both sources among its sources. *)
Definition shared (tx : TxEntry) : Prop :=
  IncludedAtBlockHeight tx ≠ 0 ∧ src ∈ Sources tx ∧ ref ∈ Sources tx.





(** What step 1 of [latencyComp] lets through: shared, and not a
    transaction with a single source. *)
Definition collected (tx : TxEntry) : Prop :=
  length (Sources tx) ≠ 1%nat ∧ shared tx.




(** Step 3 on one hash: the value recorded for the source and for the
    reference. *)
Definition diffOf (seen : gmap string Z) : Z :=
  sub64 (getInt seen ref) (getInt seen src).

Definition sourceFirst (kv : string * gmap string Z) : option Z :=
  if diffOf kv.2 =? 0 then None
  else if 0 <? diffOf kv.2 then Some (diffOf kv.2) else None.

Definition referenceFirst (kv : string * gmap string Z) : option Z :=
  if diffOf kv.2 =? 0 then None
  else if 0 <? diffOf kv.2 then None else Some (neg64 (diffOf kv.2)).
End Pair.

(** Invariants of the data model the analyzer is run on. *)

(** Hashes are lower-case. *)
Definition lowercased {V} (m : gmap string V) : Prop :=
  ∀ k, is_Some (m !! k) → ToLower k = k.

(** Every source of a transaction has a timestamp in the sourcelog under
    the transaction's hash. *)
Definition sourcesLogged (a : Analyzer2Opts) : Prop :=
  ∀ h tx s, Transactions a !! h = Some tx → s ∈ Sources tx →
    is_Some (default ∅ (Sourelog a !! h) !! s).

(** Timestamps are non-negative [int64] values. *)
Definition timestampsInRange (a : Analyzer2Opts) : Prop :=
  ∀ h sources s ts, Sourelog a !! h = Some sources → sources !! s = Some ts →
    0 ≤ ts < 2 ^ 63.

End Latency.

From Stdlib Require DecimalPos.

(** ** Vocabulary of the further properties *)

Module Reading.
Import Go Eth Common Lines.

(** The lines the loader reads: those of the files before the first one
    that cannot be opened. *)
Fixpoint linesRead (fs : gmap string Node) (files : list string) : list string :=
  match files with
  | [] => []
  | f :: rest =>
      match osOpen fs f with
      | inl _ => []
      | inr n => fileLines n ++ linesRead fs rest
      end
  end.

(** The records the blacklist loader reads: those of the files before the
    first one that cannot be opened or parsed. *)
Fixpoint recordsRead `{C : Csv} (fs : gmap string Node) (files : list string)
  : list (list string) :=
  match files with
  | [] => []
  | f :: rest =>
      match osOpen fs f with
      | inl _ => []
      | inr n =>
          match csvReadAll n with
          | inl _ => []
          | inr records => records ++ recordsRead fs rest
          end
      end
  end.

(** The hash column of a record, when it has one. *)
Definition hashColumn (record : list string) : option string :=
  match record with
  | _ :: h :: _ => Some h
  | _ => None
  end.

(** No byte of the string is [c]. *)
Fixpoint without (c : ascii) (s : string) : bool :=
  match s with
  | EmptyString => true
  | String a r => negb (Ascii.eqb a c) && without c r
  end.

(** The line the writers of a transactions CSV produce,
    [fmt.Fprintf(f, "%d,%s,%s\n", timestamp, hash, raw)]. *)
Definition txLine (ts : Z) (hash raw : string) : string :=
  itoa ts +:+ "," +:+ hash +:+ "," +:+ raw +:+ String newline "".

(** A lower-case hexadecimal digit. *)
Definition hexLower (c : ascii) : bool :=
  let n := N_of_ascii c in
  ((48 <=? n) && (n <=? 57))%N || ((97 <=? n) && (n <=? 102))%N.

End Reading.

Module Running.
Import Go Eth Common Entry Merge.

Section WithWorld.
Context (rt : GoRuntime) `{L : Lib} `{C : Csv} `{S : Services}.

(** The file system once the output directory is made. *)
Definition prepared (c : Config) (fs : gmap string Node) : gmap string Node :=
  <[outDir c := Dir]> fs.

(** The entries of a run before they are sorted: loaded, given their
    sources, and probed for inclusion. *)
Definition enriched (c : Config) (fs : gmap string Node) : gmap string TxEntry :=
  UpdateInclusionStatus (checkNodeURI c) <$>
    updateSources rt (LoadSourcelogFiles (prepared c fs) (sourcelogFiles c))
      (ofEnvelope <$>
         LoadTransactionCSVFiles (prepared c fs) (inputFiles c) (knownTxsFiles c)).
End WithWorld.
End Running.

(** ** The analyzer: NewAnalyzer2 and init *)

Module Stats.
Import Go Common Entry Analyzer.

(** [x += 1] on an [int64]. *)
Definition inc64 (z : Z) : Z := wrap64 (z + 1).

(** [m[k] += 1] *)
Definition incAt (m : gmap string Z) (k : string) : gmap string Z :=
  <[k := inc64 (getInt m k)]> m.

(** [if m[src] == nil { m[src] = make(map[bool]int64) }; m[src][b] += 1] *)
Definition incExclusive (m : gmap string (gmap bool Z)) (src : string) (b : bool)
  : gmap string (gmap bool Z) :=
  let inner := default ∅ (m !! src) in
  <[src := <[b := inc64 (default 0 (inner !! b))]> inner]> m.

(** Go's [<=] on strings: byte-wise lexicographic. *)
Definition strLe : relation string := λ x y, String.leb x y = true.

#[local] Instance strLe_dec x y : Decision (strLe x y) :=
  bool_eq_dec (String.leb x y) true.

(** [sort.Strings]. The order is total and antisymmetric, so the sorted
    list does not depend on the sorting algorithm. *)
Definition SortStrings (l : list string) : list string := merge_sort strLe l.

(** The fields of [Analyzer2] that [init] counts in. [opts] is passed
    along; [timeFirst], [timeLast] and [duration] are conversions of the
    two timestamps by package [time]. *)
Record Analyzer2 := {
  nTransactionsPerSource : gmap string Z;
  sources : list string;
  nUniqueTransactions : Z;
  nIncluded : Z;
  nNotIncluded : Z;
  nTxOnChainBySource : gmap string Z;
  nTxNotOnChainBySource : gmap string Z;
  nTxExclusiveIncluded : gmap string (gmap bool Z);  (* [src][wasIncluded]count *)
  nExclusiveOrderflow : Z;
  nTxExclusiveIncludedCnt : Z;
  nTxExclusiveNotIncludedCnt : Z;
  timestampFirst : Z;
  timestampLast : Z;
}.

(** The struct [NewAnalyzer2] builds: empty maps, zero values. *)
Definition fresh : Analyzer2 :=
  {| nTransactionsPerSource := ∅; sources := []; nUniqueTransactions := 0;
     nIncluded := 0; nNotIncluded := 0;
     nTxOnChainBySource := ∅; nTxNotOnChainBySource := ∅;
     nTxExclusiveIncluded := ∅; nExclusiveOrderflow := 0;
     nTxExclusiveIncludedCnt := 0; nTxExclusiveNotIncludedCnt := 0;
     timestampFirst := 0; timestampLast := 0 |}.

(** [if tx.IncludedAtBlockHeight == 0 { a.nNotIncluded += 1 }
     else { a.nIncluded += 1 }] *)
Definition countInclusion (tx : TxEntry) (a : Analyzer2) : Analyzer2 :=
  let off := IncludedAtBlockHeight tx =? 0 in
  {| nTransactionsPerSource := nTransactionsPerSource a;
     sources := sources a;
     nUniqueTransactions := nUniqueTransactions a;
     nIncluded := if off then nIncluded a else inc64 (nIncluded a);
     nNotIncluded := if off then inc64 (nNotIncluded a) else nNotIncluded a;
     nTxOnChainBySource := nTxOnChainBySource a;
     nTxNotOnChainBySource := nTxNotOnChainBySource a;
     nTxExclusiveIncluded := nTxExclusiveIncluded a;
     nExclusiveOrderflow := nExclusiveOrderflow a;
     nTxExclusiveIncludedCnt := nTxExclusiveIncludedCnt a;
     nTxExclusiveNotIncludedCnt := nTxExclusiveNotIncludedCnt a;
     timestampFirst := timestampFirst a;
     timestampLast := timestampLast a |}.

(** The body of [for _, src := range tx.Sources]. *)
Definition countSource (tx : TxEntry) (a : Analyzer2) (src : string) : Analyzer2 :=
  let off := IncludedAtBlockHeight tx =? 0 in
  let single := (length (Sources tx) =? 1)%nat in
  {| nTransactionsPerSource := incAt (nTransactionsPerSource a) src;
     sources := sources a;
     nUniqueTransactions := nUniqueTransactions a;
     nIncluded := nIncluded a;
     nNotIncluded := nNotIncluded a;
     nTxOnChainBySource :=
       if off then nTxOnChainBySource a else incAt (nTxOnChainBySource a) src;
     nTxNotOnChainBySource :=
       if off then incAt (nTxNotOnChainBySource a) src else nTxNotOnChainBySource a;
     nTxExclusiveIncluded :=
       if single then incExclusive (nTxExclusiveIncluded a) src (negb off)
       else nTxExclusiveIncluded a;
     nExclusiveOrderflow :=
       if single then inc64 (nExclusiveOrderflow a) else nExclusiveOrderflow a;
     nTxExclusiveIncludedCnt :=
       if single && negb off then inc64 (nTxExclusiveIncludedCnt a)
       else nTxExclusiveIncludedCnt a;
     nTxExclusiveNotIncludedCnt :=
       if single && off then inc64 (nTxExclusiveNotIncludedCnt a)
       else nTxExclusiveNotIncludedCnt a;
     timestampFirst := timestampFirst a;
     timestampLast := timestampLast a |}.

(** [if a.timestampFirst == 0 || tx.Timestamp < a.timestampFirst {...}
     if a.timestampLast == 0 || tx.Timestamp > a.timestampLast {...}] *)
Definition trackTimestamps (tx : TxEntry) (a : Analyzer2) : Analyzer2 :=
  let ts := EntryTimestamp tx in
  {| nTransactionsPerSource := nTransactionsPerSource a;
     sources := sources a;
     nUniqueTransactions := nUniqueTransactions a;
     nIncluded := nIncluded a;
     nNotIncluded := nNotIncluded a;
     nTxOnChainBySource := nTxOnChainBySource a;
     nTxNotOnChainBySource := nTxNotOnChainBySource a;
     nTxExclusiveIncluded := nTxExclusiveIncluded a;
     nExclusiveOrderflow := nExclusiveOrderflow a;
     nTxExclusiveIncludedCnt := nTxExclusiveIncludedCnt a;
     nTxExclusiveNotIncludedCnt := nTxExclusiveNotIncludedCnt a;
     timestampFirst :=
       if (timestampFirst a =? 0) || (ts <? timestampFirst a) then ts
       else timestampFirst a;
     timestampLast :=
       if (timestampLast a =? 0) || (timestampLast a <? ts) then ts
       else timestampLast a |}.

(** The body of [for _, tx := range a.opts.Transactions]. *)
Definition countTx (a : Analyzer2) (kv : string * TxEntry) : Analyzer2 :=
  let tx := kv.2 in
  trackTimestamps tx (foldl (countSource tx) (countInclusion tx a) (Sources tx)).

(** [a.nUniqueTransactions = int64(len(a.opts.Transactions))] *)
Definition setUnique (n : Z) (a : Analyzer2) : Analyzer2 :=
  {| nTransactionsPerSource := nTransactionsPerSource a;
     sources := sources a;
     nUniqueTransactions := n;
     nIncluded := nIncluded a;
     nNotIncluded := nNotIncluded a;
     nTxOnChainBySource := nTxOnChainBySource a;
     nTxNotOnChainBySource := nTxNotOnChainBySource a;
     nTxExclusiveIncluded := nTxExclusiveIncluded a;
     nExclusiveOrderflow := nExclusiveOrderflow a;
     nTxExclusiveIncludedCnt := nTxExclusiveIncludedCnt a;
     nTxExclusiveNotIncludedCnt := nTxExclusiveNotIncludedCnt a;
     timestampFirst := timestampFirst a;
     timestampLast := timestampLast a |}.

(** [a.sources = append(a.sources, src)] for every key, then
    [sort.Strings(a.sources)]. *)
Definition setSortedSources (keys : list string) (a : Analyzer2) : Analyzer2 :=
  {| nTransactionsPerSource := nTransactionsPerSource a;
     sources := SortStrings (sources a ++ keys);
     nUniqueTransactions := nUniqueTransactions a;
     nIncluded := nIncluded a;
     nNotIncluded := nNotIncluded a;
     nTxOnChainBySource := nTxOnChainBySource a;
     nTxNotOnChainBySource := nTxNotOnChainBySource a;
     nTxExclusiveIncluded := nTxExclusiveIncluded a;
     nExclusiveOrderflow := nExclusiveOrderflow a;
     nTxExclusiveIncludedCnt := nTxExclusiveIncludedCnt a;
     nTxExclusiveNotIncludedCnt := nTxExclusiveNotIncludedCnt a;
     timestampFirst := timestampFirst a;
     timestampLast := timestampLast a |}.

Section WithRuntime.
Context (rt : GoRuntime).

Definition init (opts : Analyzer2Opts) (a : Analyzer2) : Analyzer2 :=
  let a := setUnique (wrap64 (Z.of_nat (size (Transactions opts)))) a in
  let a := foldl countTx a (mapRange rt (Transactions opts)) in
  setSortedSources (mapRange rt (nTransactionsPerSource a)).*1 a.

Definition NewAnalyzer2 (opts : Analyzer2Opts) : Analyzer2 := init opts fresh.
End WithRuntime.

(** Vocabulary of the properties. *)

Definition onChain (tx : TxEntry) : Prop := IncludedAtBlockHeight tx ≠ 0.
Definition exclusive (tx : TxEntry) : Prop := length (Sources tx) = 1%nat.

(** The number of transactions with a property. *)
Definition countOf (P : TxEntry → Prop) `{∀ tx, Decision (P tx)}
    (m : gmap string TxEntry) : Z :=
  Z.of_nat (size (filter (λ kv, P kv.2) m)).

(** The same over the pairs a [range] visits. *)
Definition countIn (P : TxEntry → Prop) `{∀ tx, Decision (P tx)}
    (l : list (string * TxEntry)) : Z :=
  Z.of_nat (length (filter (λ kv, P kv.2) l)).

(** Landed plus not landed is the total for every source, in [int64]
    arithmetic. *)
Definition balanced (a : Analyzer2) : Prop :=
  ∀ src, wrap64 (getInt (nTxOnChainBySource a) src
                 + getInt (nTxNotOnChainBySource a) src)
         = getInt (nTransactionsPerSource a) src.

(** [a.nTxExclusiveIncluded[src][b]], zero when absent. *)
Definition exclusiveOf (a : Analyzer2) (src : string) (b : bool) : Z :=
  default 0 (default ∅ (nTxExclusiveIncluded a !! src) !! b).

(** Go's [<] on strings. *)
Definition strLt : relation string := λ x y, strLe x y ∧ x ≠ y.

End Stats.

(** ** Inputs of the analyzer to run the model on *)

Module Samples.
Import Go Common Entry Analyzer.

Definition H3 : string :=
  "0xcccccccccccccccccccccccccccccccccccccccccccccccccccccccccccccccc".

(** An entry with the fields the analyzer reads. *)
Definition entry (hash : string) (ts : Z) (srcs : list string) (height : Z)
  : TxEntry :=
  {| Tx := {| Rlp := "";
              Summary := {| Timestamp := ts; Hash := hash; ChainID := "1";
                            From := ""; To := ""; Value := "0"; Nonce := "0";
                            Gas := "0"; GasPrice := "0"; GasTipCap := "0";
                            GasFeeCap := "0"; DataSize := 0; Data4Bytes := "" |} |};
     Sources := srcs; IncludedAtBlockHeight := height;
     IncludedBlockTimestamp := 0; InclusionDelayMs := 0 |}.

(** Three transactions: one seen by A and B and included, one seen by B
    only and not included, one seen by A only and included. *)
Definition day : Analyzer2Opts :=
  {| Transactions :=
       {[ Demo.H1 := entry Demo.H1 1000 ["A"; "B"] 17;
          Demo.H2 := entry Demo.H2 900 ["B"] 0;
          H3 := entry H3 1100 ["A"] 18 ]};
     Sourelog :=
       {[ Demo.H1 := {[ "A" := 1000; "B" := 1200 ]};
          Demo.H2 := {[ "B" := 900 ]};
          H3 := {[ "A" := 1100 ]} ]} |}.


End Samples.
(** * Properties *)

(** ** parseTx *)

Module ParseTxProps.
Import Go Eth Common.

Section WithLib.
Context `{L : Lib}.

(** The zero address renders as forty zeros whatever the digest is: a
    digit is never upper-cased. *)
Lemma AddressHex_zero :
  AddressHex zeroAddress = "0x0000000000000000000000000000000000000000".
Proof. vm_compute. reflexivity. Qed.

Lemma parseTx_decode_error ts hash rawTx err :
  RLPStringToTx rawTx = inl err → parseTx ts hash rawTx = inl err.
Proof. intros H. unfold parseTx. by rewrite H. Qed.

Lemma parseTx_ok_iff ts hash rawTx :
  (∃ r, parseTx ts hash rawTx = inr r) ↔ (∃ tx, RLPStringToTx rawTx = inr tx).
Proof.
  unfold parseTx. destruct (RLPStringToTx rawTx) as [err|tx]; split.
  - intros [r Hr]. discriminate.
  - intros [tx Htx]. discriminate.
  - eauto.
  - intros _. destruct (Sender tx). eauto.
Qed.

Lemma parseTx_Timestamp ts hash rawTx s tx :
  parseTx ts hash rawTx = inr (s, tx) → Timestamp s = ts.
Proof.
  unfold parseTx. destruct (RLPStringToTx rawTx); [discriminate|].
  destruct (Sender _). intros [= <- _]. reflexivity.
Qed.

(** C1 (amended). When the raw transaction decodes and the signature
    recovery fails, [parseTx] still returns an entry; its [From] is the
    rendering of the zero address (forty zeros after [0x]), not the
    empty string, and every other field is derived from the decoded
    transaction by the usual rules. *)
Theorem parseTx_recovery_failure (timestampMs : Z) (hash rawTx : string)
    (tx : Transaction) (err : error) :
  RLPStringToTx rawTx = inr tx →
  signerSender tx = inl err →
  ∃ e, parseTx timestampMs hash rawTx = inr (e, tx)
    ∧ From e = "0x0000000000000000000000000000000000000000"
    ∧ From e ≠ ""
    ∧ Timestamp e = timestampMs
    ∧ Hash e = HashHex (tx_Hash tx)
    ∧ ChainID e = itoa (tx_ChainId tx)
    ∧ To e = match tx_To tx with Some a => AddressHex a | None => "" end
    ∧ Value e = itoa (tx_Value tx)
    ∧ Nonce e = itoa (Z.of_N (tx_Nonce tx))
    ∧ Gas e = itoa (Z.of_N (tx_Gas tx))
    ∧ GasPrice e = itoa (tx_GasPrice tx)
    ∧ GasTipCap e = itoa (tx_GasTipCap tx)
    ∧ GasFeeCap e = itoa (tx_GasFeeCap tx)
    ∧ DataSize e = Z.of_nat (length (tx_Data tx))
    ∧ Data4Bytes e = if (4 <=? length (tx_Data tx))%nat
                     then Encode (take 4 (tx_Data tx)) else "".
Proof.
  intros Hdec Hrec. unfold parseTx, Sender. rewrite Hdec, Hrec.
  eexists. split; [reflexivity|]. cbn [From Timestamp Hash ChainID To Value
    Nonce Gas GasPrice GasTipCap GasFeeCap DataSize Data4Bytes].
  rewrite AddressHex_zero. repeat split. discriminate.
Qed.
End WithLib.

(** Witness of C1: the transfer [txA], whose recovery fails under
    [Demo.lib]. *)
Lemma parseTx_recovery_failure_witness :
  ∃ e, parseTx (L := Demo.lib) 1000 Demo.H1 Demo.rawA = inr (e, Demo.txA)
    ∧ From e = "0x0000000000000000000000000000000000000000"
    ∧ Data4Bytes e = "0xa9059cbb".
Proof.
  destruct (parseTx_recovery_failure (L := Demo.lib) 1000 Demo.H1 Demo.rawA
              Demo.txA "invalid transaction v, r, s values" eq_refl eq_refl)
    as (e & He & Hfrom & _ & _ & _ & _ & _ & _ & _ & _ & _ & _ & _ & _ & H4).
  exists e. split; [exact He|]. split; [exact Hfrom|]. exact H4.
Defined.

(** C1 as stated fails: the raw transaction [rawA] decodes, its recovery
    fails, and the entry's [From] is not the empty string. *)
Lemma parseTx_recovery_failure_from_not_empty :
  RLPStringToTx (Lib := Demo.lib) Demo.rawA = inr Demo.txA
  ∧ signerSender (Lib := Demo.lib) Demo.txA = inl "invalid transaction v, r, s values"
  ∧ ∃ e, parseTx (L := Demo.lib) 1000 Demo.H1 Demo.rawA = inr (e, Demo.txA)
      ∧ From e = "0x0000000000000000000000000000000000000000"
      ∧ From e ≠ "".
Proof.
  split; [reflexivity|]. split; [reflexivity|].
  eexists. split; [vm_compute; reflexivity|].
  split; [reflexivity|discriminate].
Qed.

End ParseTxProps.

(** ** The CSV loaders *)

Module LoaderProps.
Import Go Eth Common Lines.

Lemma setTimestamp_Timestamp ts e : Timestamp (Summary (setTimestamp ts e)) = ts.
Proof. reflexivity. Qed.

Lemma setTimestamp_twice ts ts' e :
  setTimestamp ts (setTimestamp ts' e) = setTimestamp ts e.
Proof. reflexivity. Qed.

Lemma setTimestamp_same e : setTimestamp (Timestamp (Summary e)) e = e.
Proof. destruct e as [r []]. reflexivity. Qed.

Lemma setTimestamp_Rlp ts e : Rlp (setTimestamp ts e) = Rlp e.
Proof. reflexivity. Qed.

Section WithLib.
Context `{L : Lib} `{C : Csv}.

(** *** One line *)

Lemma processFields_not_short known txs items :
  (processFields known txs items).2 ≠ ShortLine.
Proof.
  unfold processFields.
  repeat (case_match; simpl; try discriminate).
Qed.

Lemma processLine_parseLine known txs l :
  (processLine known txs l).1 =
    match parseLine l with
    | Some (ts, h, raw) => storeTx known txs ts h raw
    | None => txs
    end.
Proof.
  unfold processLine, parseLine, processFields, storeTx.
  destruct (String.length l <? 66)%nat; [done|].
  destruct (Split comma (Trim newline l)) as [|i0 [|i1 [|i2 [|? ?]]]]; try done.
  destruct (Atoi i0) as [ts|]; [|done].
  destruct (getBool known (ToLower i1)); [done|].
  destruct (txs !! ToLower i1) as [e|].
  - simpl. by destruct (ts <? Timestamp (Summary e)).
  - destruct (parseTx ts (ToLower i1) i2) as [?|[s ?]]; done.
Qed.

Lemma parseLine_fieldsOf l :
  parseLine l = if (String.length l <? 66)%nat then None else fieldsOf l.
Proof. reflexivity. Qed.

Lemma loadLines_snoc known txs pre l :
  loadLines known txs (pre ++ [l]) = (processLine known (loadLines known txs pre) l).1.
Proof. unfold loadLines. by rewrite foldl_app. Qed.

Lemma loadLines_middle known txs pre l post :
  loadLines known txs (pre ++ l :: post)
    = loadLines known (processLine known (loadLines known txs pre) l).1 post.
Proof. unfold loadLines. by rewrite foldl_app. Qed.

(** C7 (amended). The length the loader tests is that of the chunk the
    reader returned, the line with its newline. A chunk shorter than 66
    bytes is skipped before anything in it is looked at: the loader's map
    is what it would be without the chunk. A chunk of at least 66 bytes
    is not skipped for its length but parsed: the map goes on from what
    the fields of the chunk say, and
    a chunk with three fields, a timestamp, a hash that is neither
    blacklisted nor stored yet and a raw transaction that decodes is
    stored under its hash. *)
Theorem chunk_length_decides (prevKnownTxs : gmap string bool)
    (txs : gmap string TxEnvelope) (pre post : list string) (l : string) :
  ((String.length l < 66)%nat →
     processLine prevKnownTxs txs l = (txs, ShortLine)
     ∧ loadLines prevKnownTxs txs (pre ++ l :: post)
       = loadLines prevKnownTxs txs (pre ++ post))
  ∧ ((66 ≤ String.length l)%nat →
     (processLine prevKnownTxs txs l).2 ≠ ShortLine
     ∧ loadLines prevKnownTxs txs (pre ++ l :: post)
       = loadLines prevKnownTxs
           (match fieldsOf l with
            | Some (ts, h, raw) =>
                storeTx prevKnownTxs (loadLines prevKnownTxs txs pre) ts h raw
            | None => loadLines prevKnownTxs txs pre
            end) post)
  ∧ ((66 ≤ String.length l)%nat →
     ∀ ts h raw s tx,
       fieldsOf l = Some (ts, h, raw) →
       getBool prevKnownTxs h = false →
       loadLines prevKnownTxs txs pre !! h = None →
       parseTx ts h raw = inr (s, tx) →
       loadLines prevKnownTxs txs (pre ++ [l]) !! h
         = Some {| Rlp := raw; Summary := s |}).
Proof.
  split; [|split].
  - intros Hlen. apply Nat.ltb_lt in Hlen. split.
    + unfold processLine. by rewrite Hlen.
    + rewrite loadLines_middle. unfold processLine. rewrite Hlen. simpl.
      unfold loadLines. by rewrite foldl_app.
  - intros Hlen. apply Nat.ltb_ge in Hlen. split.
    + unfold processLine. rewrite Hlen. apply processFields_not_short.
    + rewrite loadLines_middle, processLine_parseLine, parseLine_fieldsOf, Hlen.
      reflexivity.
  - intros Hlen ts h raw s tx Hf Hk Hnew Hp. apply Nat.ltb_ge in Hlen.
    rewrite loadLines_snoc, processLine_parseLine, parseLine_fieldsOf, Hlen, Hf.
    unfold storeTx. rewrite Hk, Hnew, Hp. apply lookup_insert_eq.
Qed.

(** *** All lines *)

Lemma storeTx_lookup_ne known txs ts h raw h' :
  h ≠ h' → storeTx known txs ts h raw !! h' = txs !! h'.
Proof.
  intros Hne. unfold storeTx.
  repeat case_match; try done; by rewrite lookup_insert_ne.
Qed.

Lemma storeTx_lookup_known known txs ts h raw h' :
  getBool known h' = true → storeTx known txs ts h raw !! h' = txs !! h'.
Proof.
  intros Hk. destruct (decide (h = h')) as [->|Hne].
  - unfold storeTx. by rewrite Hk.
  - by apply storeTx_lookup_ne.
Qed.

Lemma storeTx_lookup_eq known txs ts h raw :
  getBool known h = false →
  storeTx known txs ts h raw !! h = settle h (txs !! h) (ts, raw).
Proof.
  intros Hk. unfold storeTx, settle. rewrite Hk. simpl.
  destruct (txs !! h) as [e|] eqn:He.
  - destruct (ts <? Timestamp (Summary e)); [by rewrite lookup_insert_eq|done].
  - destruct (parseTx ts h raw) as [?|[s ?]]; [done|by rewrite lookup_insert_eq].
Qed.

Lemma loadLines_app known txs l1 l2 :
  loadLines known txs (l1 ++ l2) = loadLines known (loadLines known txs l1) l2.
Proof. unfold loadLines. apply foldl_app. Qed.

(** A hash of the blacklist never gets an entry. *)
Lemma loadLines_lookup_known known txs lines h :
  getBool known h = true → loadLines known txs lines !! h = txs !! h.
Proof.
  intros Hk. revert txs. induction lines as [|l lines IH]; intros txs; [done|].
  unfold loadLines in *. simpl. rewrite IH, processLine_parseLine.
  destruct (parseLine l) as [[[ts h'] raw]|]; [|done].
  by apply storeTx_lookup_known.
Qed.

(** The entry of any other hash is settled by its occurrences alone. *)
Lemma loadLines_lookup known txs lines h :
  getBool known h = false →
  loadLines known txs lines !! h = foldl (settle h) (txs !! h) (occurrences h lines).
Proof.
  intros Hk. revert txs. induction lines as [|l lines IH]; intros txs; [done|].
  unfold loadLines, occurrences in *. simpl. rewrite IH, processLine_parseLine.
  unfold occurrence.
  destruct (parseLine l) as [[[ts h'] raw]|]; [|done].
  destruct (decide (h' = h)) as [->|Hne]; simpl.
  - by rewrite storeTx_lookup_eq.
  - by rewrite storeTx_lookup_ne.
Qed.

Lemma loadTxFiles_allLines fs known files txs :
  Forall (opens fs) files →
  loadTxFiles fs known files txs = loadLines known txs (allLines fs files).
Proof.
  intros Hopen. revert txs. induction Hopen as [|f files [n Hn] _ IH]; intros txs.
  - done.
  - unfold allLines in *. simpl. rewrite Hn, loadLines_app. apply IH.
Qed.

(** Once stored, an entry only has its timestamp lowered. *)
Lemma settle_stored h e occ :
  foldl (settle h) (Some e) occ
    = Some (setTimestamp (minTimestamp (Timestamp (Summary e)) occ) e).
Proof.
  unfold minTimestamp. revert e. induction occ as [|[ts raw] occ IH]; intros e.
  - simpl. by rewrite setTimestamp_same.
  - simpl. destruct (Z.ltb_spec ts (Timestamp (Summary e))) as [Hlt|Hge].
    + rewrite IH, setTimestamp_Timestamp, setTimestamp_twice.
      by rewrite (Z.min_r _ ts) by lia.
    + rewrite IH. by rewrite (Z.min_l _ ts) by lia.
Qed.

(** Occurrences whose raw transaction does not decode leave no trace
    while the hash has no entry. *)
Lemma settle_first h occ e :
  foldl (settle h) None occ = Some e →
  ∃ pre ts0 raw0 post s tx,
    occ = pre ++ (ts0, raw0) :: post
    ∧ Forall (λ o, ¬ decodes o.2) pre
    ∧ parseTx ts0 h raw0 = inr (s, tx)
    ∧ e = setTimestamp (minTimestamp ts0 post) {| Rlp := raw0; Summary := s |}.
Proof.
  induction occ as [|[ts raw] occ IH]; [done|].
  simpl. destruct (parseTx ts h raw) as [err|[s tx]] eqn:Hp.
  - intros He. destruct (IH He) as (pre & ts0 & raw0 & post & s & tx & -> & Hpre & Hp0 & ->).
    exists ((ts, raw) :: pre), ts0, raw0, post, s, tx. repeat split; try done.
    constructor; [|done]. simpl. intros [tx' Htx'].
    unfold parseTx in Hp. rewrite Htx' in Hp. by destruct (Sender tx').
  - rewrite settle_stored. intros [= <-].
    exists [], ts, raw, occ, s, tx. repeat split; try done.
    simpl. by rewrite (ParseTxProps.parseTx_Timestamp ts h raw s tx Hp).
Qed.

Lemma settle_some_iff h occ :
  is_Some (foldl (settle h) None occ) ↔ Exists (λ o, decodes o.2) occ.
Proof.
  induction occ as [|[ts raw] occ IH]; simpl.
  - split; [by intros [? ?]|by intros ?%Exists_nil].
  - rewrite Exists_cons. simpl.
    destruct (parseTx ts h raw) as [err|[s tx]] eqn:Hp.
    + rewrite IH. split; [by right|]. intros [[tx Htx]|H]; [|done].
      unfold parseTx in Hp. rewrite Htx in Hp. by destruct (Sender tx).
    + rewrite settle_stored. split; [|by eauto].
      intros _. left. apply (ParseTxProps.parseTx_ok_iff ts h raw). eauto.
Qed.

Lemma minTimestamp_cons ts0 o occ :
  minTimestamp ts0 (o :: occ) = minTimestamp (Z.min ts0 o.1) occ.
Proof. reflexivity. Qed.

Lemma minTimestamp_le ts0 occ :
  minTimestamp ts0 occ ≤ ts0 ∧ Forall (λ o, minTimestamp ts0 occ ≤ o.1) occ.
Proof.
  revert ts0. induction occ as [|o occ IH]; intros ts0.
  - split; [reflexivity|constructor].
  - rewrite minTimestamp_cons. destruct (IH (Z.min ts0 o.1)) as [Hle Hall].
    split; [lia|]. constructor; [lia|done].
Qed.

Lemma minTimestamp_in ts0 occ :
  minTimestamp ts0 occ = ts0 ∨ minTimestamp ts0 occ ∈ occ.*1.
Proof.
  revert ts0. induction occ as [|o occ IH]; intros ts0.
  - by left.
  - rewrite minTimestamp_cons, fmap_cons.
    destruct (IH (Z.min ts0 o.1)) as [->|Hin].
    + destruct (Z.min_spec ts0 o.1) as [[_ ->]|[_ ->]]; [by left|].
      right. by left.
    + right. by right.
Qed.

Lemma loadTxFiles_lookup_known fs known files txs h :
  getBool known h = true → loadTxFiles fs known files txs !! h = txs !! h.
Proof.
  intros Hk. revert txs. induction files as [|f files IH]; intros txs; [done|].
  simpl. destruct (osOpen fs f); [done|].
  by rewrite IH, loadLines_lookup_known.
Qed.

(** A hash that made it into the loaded blacklist has no entry. *)
Lemma known_hash_not_loaded fs files knownTxsFiles h :
  getBool (LoadTxHashesFromMetadataCSVFiles fs knownTxsFiles) h = true →
  LoadTransactionCSVFiles fs files knownTxsFiles !! h = None.
Proof.
  intros Hk. unfold LoadTransactionCSVFiles.
  by rewrite loadTxFiles_lookup_known.
Qed.

(** *** The blacklist *)

Lemma addRecord_keeps txs record h :
  getBool txs h = true → getBool (addRecord txs record) h = true.
Proof.
  intros Hh. unfold addRecord. destruct record as [|c0 [|h' rest]]; try done.
  unfold getBool. destruct (decide (ToLower h' = h)) as [->|Hne].
  - by rewrite lookup_insert_eq.
  - by rewrite lookup_insert_ne.
Qed.

Lemma addRecords_keep txs records h :
  getBool txs h = true → getBool (foldl addRecord txs records) h = true.
Proof.
  revert txs. induction records as [|r records IH]; intros txs Hh; [done|].
  simpl. by apply IH, addRecord_keeps.
Qed.

Lemma addRecords_add txs records c0 h rest :
  c0 :: h :: rest ∈ records →
  getBool (foldl addRecord txs records) (ToLower h) = true.
Proof.
  revert txs. induction records as [|r records IH]; intros txs Hin.
  - by apply elem_of_nil in Hin.
  - simpl. apply elem_of_cons in Hin as [<-|Hin]; [|by apply IH].
    apply addRecords_keep. unfold getBool. simpl. by rewrite lookup_insert_eq.
Qed.

Lemma loadTxHashes_keeps fs files txs h :
  getBool txs h = true → getBool (loadTxHashes fs files txs) h = true.
Proof.
  revert txs. induction files as [|f files IH]; intros txs Hh; [done|].
  simpl. destruct (osOpen fs f) as [|n]; [done|].
  destruct (csvReadAll n) as [|records]; [done|].
  by apply IH, addRecords_keep.
Qed.

(** When every blacklist file opens and parses, a hash in the second
    column of any of them is dropped by the loader, whatever its case
    and however many lines carry it. *)
Lemma blacklisted_hash_dropped fs files knownTxsFiles f n records c0 h rest :
  Forall (loads fs) knownTxsFiles →
  f ∈ knownTxsFiles → osOpen fs f = inr n → csvReadAll n = inr records →
  c0 :: h :: rest ∈ records →
  LoadTransactionCSVFiles fs files knownTxsFiles !! ToLower h = None.
Proof.
  intros Hall Hf Hn Hrs Hin. apply known_hash_not_loaded.
  unfold LoadTxHashesFromMetadataCSVFiles. generalize (∅ : gmap string bool).
  induction Hall as [|f' fs' (n' & rs' & Hn' & Hrs') _ IH]; intros txs.
  - by apply elem_of_nil in Hf.
  - simpl. rewrite Hn', Hrs'. apply elem_of_cons in Hf as [->|Hf].
    + apply loadTxHashes_keeps. rewrite Hn in Hn'. injection Hn' as <-.
      rewrite Hrs in Hrs'. injection Hrs' as <-. by eapply addRecords_add.
    + by apply IH.
Qed.

(** C2 (amended). When every input file opens: a hash has an entry
    exactly when it is not blacklisted and one of its occurrences
    decodes; the entry is the first occurrence that decodes, with its
    raw transaction and decoded fields, and with the timestamp lowered
    to the minimum over that occurrence and the occurrences after it.
    Occurrences before it, whose raw transaction did not decode, do not
    count. *)
Theorem first_decoded_occurrence_kept (fs : gmap string Node)
    (files knownTxsFiles : list string) (h : string) :
  Forall (opens fs) files →
  let txs := LoadTransactionCSVFiles fs files knownTxsFiles in
  let occ := occurrences h (allLines fs files) in
  (is_Some (txs !! h) ↔
     getBool (LoadTxHashesFromMetadataCSVFiles fs knownTxsFiles) h = false
     ∧ Exists (λ o, decodes o.2) occ)
  ∧ ∀ e, txs !! h = Some e →
      ∃ pre ts0 raw0 post s tx,
        occ = pre ++ (ts0, raw0) :: post
        ∧ Forall (λ o, ¬ decodes o.2) pre
        ∧ parseTx ts0 h raw0 = inr (s, tx)
        ∧ e = setTimestamp (minTimestamp ts0 post) {| Rlp := raw0; Summary := s |}.
Proof.
  intros Hopen txs occ. subst txs occ. unfold LoadTransactionCSVFiles.
  rewrite loadTxFiles_allLines by done.
  destruct (getBool (LoadTxHashesFromMetadataCSVFiles fs knownTxsFiles) h) eqn:Hk.
  - rewrite loadLines_lookup_known by done. rewrite lookup_empty. split.
    + split; [by intros [? ?]|by intros [? _]].
    + done.
  - rewrite loadLines_lookup by done. rewrite lookup_empty. split.
    + rewrite settle_some_iff. split; [by intros ?|by intros [_ ?]].
    + intros e He. by apply settle_first.
Qed.
End WithLib.

Import Demo.
#[local] Existing Instance lib.
#[local] Existing Instance csv.

(** Witness of C7: [line65] as the last line of a file, without a
    newline, is a chunk of 65 bytes and is skipped; followed by a newline
    it is a chunk of 66 bytes and is stored. *)
Lemma chunk_length_decides_witness :
  String.length line65 = 65%nat
  ∧ LoadTransactionCSVFiles with65Unterminated ["in.csv"] [] = ∅
  ∧ loadLines ∅ ∅ ([] ++ line65 :: []) = loadLines ∅ ∅ ([] ++ [])
  ∧ ∃ s tx,
      parseTx 1000 h53 rawA = inr (s, tx)
      ∧ loadLines ∅ ∅ ([] ++ [line65 +:+ String newline ""]) !! h53
        = Some {| Rlp := rawA; Summary := s |}.
Proof.
  split; [reflexivity|]. split; [vm_compute; reflexivity|]. split.
  - apply (proj1 (chunk_length_decides ∅ ∅ [] [] line65)). vm_compute. lia.
  - eexists _, _. split; [vm_compute; reflexivity|].
    eapply (proj2 (proj2 (chunk_length_decides ∅ ∅ [] []
                            (line65 +:+ String newline ""))));
      [vm_compute; lia|vm_compute; reflexivity..].
Defined.

(** C7 as stated fails: a line of 65 bytes that is followed by its
    newline is read as a chunk of 66 bytes and passes the length check.
    Without a comma it is split and reported as an invalid line, whatever
    the decoder; with a timestamp, a hash column and a raw transaction the
    decoder accepts it is parsed and stored. *)
Lemma line_of_65_bytes_attempted :
  String.length noComma65 = 65%nat
  ∧ fileLines (File true (noComma65 +:+ String newline ""))
    = [noComma65 +:+ String newline ""]
  ∧ processLine ∅ ∅ (noComma65 +:+ String newline "") = (∅, InvalidLine)
  ∧ String.length line65 = 65%nat
  ∧ fileLines (File true (line65 +:+ String newline ""))
    = [line65 +:+ String newline ""]
  ∧ ∃ e, LoadTransactionCSVFiles with65 ["in.csv"] [] !! h53 = Some e
       ∧ Rlp e = rawA ∧ Timestamp (Summary e) = 1000.
Proof.
  split; [reflexivity|]. split; [vm_compute; reflexivity|].
  split; [vm_compute; reflexivity|].
  split; [reflexivity|]. split; [vm_compute; reflexivity|].
  eexists. split; [vm_compute; reflexivity|]. split; reflexivity.
Qed.

(** Witness of C2: the entry of [H1] is the first line's, with the second
    line's timestamp. *)
Lemma first_decoded_occurrence_kept_witness :
  ∃ e, LoadTransactionCSVFiles goodThenBad ["in.csv"] [] !! H1 = Some e
    ∧ ∃ pre ts0 raw0 post s tx,
        occurrences H1 (allLines goodThenBad ["in.csv"]) = pre ++ (ts0, raw0) :: post
        ∧ Forall (λ o, ¬ decodes o.2) pre
        ∧ parseTx ts0 H1 raw0 = inr (s, tx)
        ∧ e = setTimestamp (minTimestamp ts0 post) {| Rlp := raw0; Summary := s |}.
Proof.
  assert (Hopen : Forall (opens goodThenBad) ["in.csv"]).
  { repeat constructor. eexists. vm_compute. reflexivity. }
  destruct (LoadTransactionCSVFiles goodThenBad ["in.csv"] [] !! H1) as [e|] eqn:He.
  - exists e. split; [reflexivity|].
    exact (proj2 (first_decoded_occurrence_kept goodThenBad ["in.csv"] [] H1 Hopen) e He).
  - vm_compute in He. discriminate.
Defined.

(** C2 as stated fails: [H1] occurs on two lines that pass the checks
    (66 bytes, three fields, a timestamp), with timestamps 500 and 1000;
    the first does not decode, and the stored timestamp is 1000, not the
    minimum over all occurrences. *)
Lemma min_over_all_occurrences_fails :
  Forall (opens badThenGood) ["in.csv"]
  ∧ occurrences H1 (allLines badThenGood ["in.csv"]) = [(500, "0xzz"); (1000, rawA)]
  ∧ ∃ e, LoadTransactionCSVFiles badThenGood ["in.csv"] [] !! H1 = Some e
      ∧ Rlp e = rawA
      ∧ Timestamp (Summary e) = 1000
      ∧ Timestamp (Summary e) ≠ Z.min 500 1000.
Proof.
  split. { repeat constructor. eexists. vm_compute. reflexivity. }
  split; [vm_compute; reflexivity|].
  eexists. split; [vm_compute; reflexivity|].
  split; [reflexivity|]. split; [reflexivity|]. vm_compute. discriminate.
Qed.

(** C3 at a failing input: a blacklist file that is missing ends
    the loading of the blacklist, the files after it are never read, and
    the hash [H1] that [known.csv] lists is loaded all the same. With
    [known.csv] alone it is dropped. *)
Lemma blacklist_cut_short_by_missing_file :
  ReadAll knownRow = inr [["900"; H1; "1"]]
  ∧ withBlacklist !! "missing.csv" = None
  ∧ LoadTxHashesFromMetadataCSVFiles withBlacklist ["missing.csv"; "known.csv"] = ∅
  ∧ is_Some (LoadTransactionCSVFiles withBlacklist ["in.csv"] ["missing.csv"; "known.csv"] !! H1)
  ∧ LoadTransactionCSVFiles withBlacklist ["in.csv"] ["known.csv"] !! H1 = None.
Proof.
  split; [vm_compute; reflexivity|]. split; [vm_compute; reflexivity|].
  split; [vm_compute; reflexivity|].
  split; [eexists; vm_compute; reflexivity|vm_compute; reflexivity].
Qed.
End LoaderProps.

(** ** mergeTransactions *)

Module MergeProps.
Import Go Eth Common Entry Merge Running.

Lemma StronglySorted_filter {A} (R : relation A) (P : A → Prop)
    `{∀ x, Decision (P x)} (l : list A) :
  StronglySorted R l → StronglySorted R (filter P l).
Proof.
  induction 1 as [|x l Hl IH Hx]; [constructor|].
  rewrite filter_cons. destruct (decide (P x)); [|done].
  constructor; [done|]. rewrite Forall_forall in *.
  intros y [_ Hy]%list_elem_of_filter. by apply Hx.
Qed.

Lemma StronglySorted_lookup {A} (R : relation A) (l : list A) i j x y :
  StronglySorted R l → (i < j)%nat → l !! i = Some x → l !! j = Some y → R x y.
Proof.
  intros Hl. revert i j. induction Hl as [|a l Hl IH Ha]; intros i j Hij Hi Hj.
  - done.
  - destruct j as [|j]; [lia|]. destruct i as [|i]; simpl in *.
    + injection Hi as ->. rewrite Forall_forall in Ha. apply Ha.
      by eapply list_elem_of_lookup_2.
    + eapply (IH i j); [lia|done..].
Qed.

Lemma firstFailing_None ok fns :
  firstFailing ok fns = None ↔ Forall (λ fn, ok fn = true) fns.
Proof.
  unfold firstFailing. induction fns as [|fn fns IH]; simpl.
  - split; [constructor|done].
  - rewrite filter_cons, Forall_cons. destruct (decide (ok fn = false)) as [Hf|Hf].
    + simpl. split; [done|]. intros [Ht _]. congruence.
    + rewrite IH. apply not_false_iff_true in Hf. split; [by intros ?|by intros [_ ?]].
Qed.

Lemma firstFailing_Some ok fns fn :
  firstFailing ok fns = Some fn → fn ∈ fns ∧ ok fn = false.
Proof.
  unfold firstFailing. intros Hh. apply head_Some_elem_of in Hh.
  by apply list_elem_of_filter in Hh as [? ?].
Qed.

(** *** The write loop *)

Lemma writeEntry_fold w l :
  foldl writeEntry w l =
    {| pw := pw w ++ filter kept l;
       fCSVMeta := fCSVMeta w ++ (metaRow <$> filter kept l);
       fCSVTxs := (λ ls, ls ++ (txRow <$> filter kept l)) <$> fCSVTxs w |}.
Proof.
  revert w. induction l as [|tx l IH]; intros w.
  - simpl. rewrite !app_nil_r. destruct w as [? ? [?|]]; simpl; by rewrite ?app_nil_r.
  - simpl. rewrite IH. unfold writeEntry. rewrite filter_cons.
    destruct (Z.leb_spec (InclusionDelayMs tx) (-12000)) as [Hle|Hgt].
    + destruct (decide (kept tx)) as [Hk|_]; [unfold kept in Hk; lia|done].
    + destruct (decide (kept tx)) as [_|Hk]; [|unfold kept in Hk; lia].
      simpl. rewrite <- !app_assoc. simpl. f_equal.
      destruct (fCSVTxs w); simpl; by rewrite <- ?app_assoc.
Qed.

Lemma writeOutput_filter flag txsSlice :
  writeOutput flag txsSlice =
    {| parquet := filter kept txsSlice;
       metaCSV := csvHeader :: (metaRow <$> filter kept txsSlice);
       txCSV := if flag then Some (txCSVHeader :: (txRow <$> filter kept txsSlice))
                else None |}.
Proof.
  unfold writeOutput. rewrite writeEntry_fold. unfold closeWriters, openWriters.
  simpl. by destruct flag.
Qed.

Section WithWorld.
Context (rt : GoRuntime) `{L : Lib} `{C : Csv} `{S : Services}.

Lemma sortedSlice_perm txs : sortedSlice rt txs ≡ₚ (map_to_list txs).*2.
Proof. unfold sortedSlice. by rewrite sortSlice_perm, mapRange_perm. Qed.

Lemma sortedSlice_sorted txs : StronglySorted byTimestamp (sortedSlice rt txs).
Proof. apply sortSlice_sorted. Qed.

(** C4 (amended). The slice the merger writes from holds every entry of
    the map once and is in ascending order of [timestamp_ms]; nothing
    orders entries of equal timestamp. *)
Theorem slice_sorted_by_timestamp (txs : gmap string TxEntry) :
  sortedSlice rt txs ≡ₚ (map_to_list txs).*2
  ∧ StronglySorted byTimestamp (sortedSlice rt txs).
Proof. split; [apply sortedSlice_perm|apply sortedSlice_sorted]. Qed.

(** A finished run wrote what the write loop makes of the sorted slice
    of some map of entries. *)
Lemma finished_inv c fs out :
  mergeTransactions rt c fs = Finished out →
  ∃ txs, out = writeOutput (writeTxCSV c) (sortedSlice rt txs).
Proof.
  unfold mergeTransactions. intros H.
  repeat (case_match; try discriminate).
  injection H as <-. eauto.
Qed.

(** A finished run wrote what the write loop makes of the sorted slice
    of its own entries: loaded, given their sources, probed. *)
Lemma finished_enriched c fs out :
  mergeTransactions rt c fs = Finished out →
  out = writeOutput (writeTxCSV c) (sortedSlice rt (enriched rt c fs)).
Proof.
  unfold mergeTransactions, enriched, prepared, updateInclusionStatus, MkdirAll.
  intros H. repeat (case_match; try discriminate); simplify_eq; done.
Qed.

(** C5. The rows of the Parquet file are in non-decreasing order of
    [timestamp_ms]: each row's timestamp is at most the next row's. *)
Theorem parquet_rows_non_decreasing (c : Config) (fs : gmap string Node)
    (out : Output) (i : nat) (x y : TxEntry) :
  mergeTransactions rt c fs = Finished out →
  parquet out !! i = Some x →
  parquet out !! Datatypes.S i = Some y →
  EntryTimestamp x ≤ EntryTimestamp y.
Proof.
  intros [txs ->]%finished_inv Hx Hy. rewrite writeOutput_filter in Hx, Hy.
  simpl in Hx, Hy.
  eapply (StronglySorted_lookup byTimestamp _ i (Datatypes.S i)); [|lia|done..].
  apply StronglySorted_filter, sortedSlice_sorted.
Qed.

(** C6. The sorted slice of a run holds its enriched entries. A finished
    run wrote, of that slice and in its order, exactly the entries whose
    [InclusionDelayMs] is above -12000: as rows of the Parquet file, as
    lines of the metadata CSV after its header and, when the transactions
    CSV is written, as its lines. So an entry of the slice is written if
    and only if its delay is above -12000. *)
Theorem late_inclusion_skipped (c : Config) (fs : gmap string Node) (out : Output) :
  mergeTransactions rt c fs = Finished out →
  parquet out = filter kept (sortedSlice rt (enriched rt c fs))
  ∧ metaCSV out
    = csvHeader :: (metaRow <$> filter kept (sortedSlice rt (enriched rt c fs)))
  ∧ txCSV out
    = (if writeTxCSV c
       then Some (txCSVHeader
                    :: (txRow <$> filter kept (sortedSlice rt (enriched rt c fs))))
       else None)
  ∧ ∀ tx, tx ∈ sortedSlice rt (enriched rt c fs) →
          (tx ∈ parquet out ↔ -12000 < InclusionDelayMs tx).
Proof.
  intros ->%finished_enriched. rewrite writeOutput_filter. simpl.
  split; [done|]. split; [done|]. split; [done|].
  intros tx Hin. rewrite list_elem_of_filter. unfold kept. tauto.
Qed.

(** The check of the loader's error: when the loader reports one, the
    run ends before anything is written. *)
Lemma loader_error_aborts c fs err :
  LoadTransactionsError (prepared c fs) (inputFiles c) (knownTxsFiles c) = Some err →
  ∃ why, mergeTransactions rt c fs = Aborted why.
Proof.
  intros Herr. unfold mergeTransactions, MkdirAll.
  repeat (case_match; try by eauto); simplify_eq;
    unfold prepared in Herr; congruence.
Qed.

Lemma MkdirAll_keeps fs dir fs' p :
  MkdirAll fs dir = Some fs' → is_Some (fs !! p) → is_Some (fs' !! p).
Proof.
  unfold MkdirAll. intros H Hp.
  assert (fs' = <[dir := Dir]> fs) as -> by (repeat case_match; congruence).
  destruct (decide (dir = p)) as [->|Hne].
  - rewrite lookup_insert_eq. eauto.
  - by rewrite lookup_insert_ne.
Qed.

(** C10. When one of the three output paths exists, the run ends before
    any input is loaded and before anything is written: no arguments,
    the output directory cannot be made, or one of the three paths is
    found to exist - whatever the flag for the transactions CSV says. *)
Theorem existing_output_aborts (c : Config) (fs : gmap string Node) (p : string) :
  p ∈ [fnParquetTxs c; fnCSVMeta c; fnCSVTxs c] →
  is_Some (fs !! p) →
  mergeTransactions rt c fs = Aborted NoInputFiles
  ∨ mergeTransactions rt c fs = Aborted MkdirAllFailed
  ∨ ∃ fn, mergeTransactions rt c fs = Aborted (OutputExists fn)
       ∧ fn ∈ [fnParquetTxs c; fnCSVMeta c; fnCSVTxs c].
Proof.
  intros Hp Hex. unfold mergeTransactions.
  destruct (inputFiles c) as [|f0 fns]; [by left|].
  destruct (MkdirAll fs (outDir c)) as [fs'|] eqn:Hmk; [|by right; left].
  right; right.
  destruct (firstFailing (MustNotExist fs') _) as [fn|] eqn:Hff.
  - exists fn. split; [done|]. by apply firstFailing_Some in Hff as [? _].
  - exfalso. apply firstFailing_None in Hff. rewrite Forall_forall in Hff.
    specialize (Hff p Hp). unfold MustNotExist in Hff.
    apply bool_decide_eq_true in Hff.
    destruct (MkdirAll_keeps fs (outDir c) fs' p Hmk Hex) as [? Hsome]. congruence.
Qed.

(** A raw transactions CSV or a sourcelog CSV that is missing ends the
    run before anything is loaded. *)
Lemma missing_input_aborts c fs f :
  f ∈ inputFiles c ++ sourcelogFiles c → fs !! f = None →
  ∃ why, mergeTransactions rt c fs = Aborted why.
Proof.
  intros Hf Hmiss. unfold mergeTransactions.
  destruct (inputFiles c) as [|f0 fns] eqn:Hin; [by eauto|].
  destruct (MkdirAll fs (outDir c)) as [fs'|] eqn:Hmk; [|by eauto].
  destruct (firstFailing (MustNotExist fs') _); [by eauto|].
  destruct (firstFailing (MustBeFile fs') _) as [fn|] eqn:Hff; [by eauto|].
  exfalso. apply firstFailing_None in Hff. rewrite Forall_forall in Hff.
  specialize (Hff f Hf). unfold MustBeFile in Hff.
  assert (fs' = <[outDir c := Dir]> fs) as ->
    by (unfold MkdirAll in Hmk; repeat case_match; congruence).
  destruct (decide (outDir c = f)) as [Heq|Hne].
  - by rewrite Heq, lookup_insert_eq in Hff.
  - by rewrite lookup_insert_ne, Hmiss in Hff.
Qed.
End WithWorld.

Import Demo.
#[local] Existing Instance lib.
#[local] Existing Instance csv.

(** C4 as stated fails: two entries with [timestamp_ms] 1000 and hashes
    [H2] and [H1] are written in the order [H2], [H1] when the map is
    visited in that order; visited in the other order they are written
    [H1], [H2]. *)
Lemma equal_timestamps_not_ordered_by_hash :
  (H1 ?= H2)%string = Lt
  ∧ (∃ out, mergeTransactions (S := services) descending (run ["in.csv"] [] false)
              sameMillisecond = Finished out
          ∧ row <$> parquet out = [(1000, H2); (1000, H1)])
  ∧ (∃ out, mergeTransactions (S := services) ascending (run ["in.csv"] [] false)
              sameMillisecond = Finished out
          ∧ row <$> parquet out = [(1000, H1); (1000, H2)]).
Proof.
  split; [reflexivity|].
  split; eexists; (split; [vm_compute; reflexivity|reflexivity]).
Qed.

(** Witness of C5: the later transaction comes first in the file and
    second in the Parquet file. *)
Lemma parquet_rows_non_decreasing_witness :
  ∃ out x y,
    mergeTransactions (S := services) ascending (run ["in.csv"] [] false) laterFirst
      = Finished out
    ∧ row <$> parquet out = [(80000, H1); (100000, H2)]
    ∧ parquet out !! 0%nat = Some x ∧ parquet out !! 1%nat = Some y
    ∧ EntryTimestamp x ≤ EntryTimestamp y.
Proof.
  eexists _, _, _. split; [vm_compute; reflexivity|].
  split; [reflexivity|]. split; [reflexivity|]. split; [reflexivity|].
  eapply (parquet_rows_non_decreasing (S := services) ascending
            (run ["in.csv"] [] false) laterFirst _ 0);
    [vm_compute; reflexivity|reflexivity|reflexivity].
Defined.

(** Witness of C6: included in a block of time 85 s, the transaction seen
    at 100000 ms has a delay of -15000 ms and is left out of all three
    files; the one seen at 80000 ms is written. *)
Lemma late_inclusion_skipped_witness :
  ∃ out,
    mergeTransactions (S := included) ascending (run ["in.csv"] [] true) laterFirst
      = Finished out
    ∧ (λ tx, (EntryHash tx, InclusionDelayMs tx))
        <$> sortedSlice ascending
              (enriched (S := included) ascending (run ["in.csv"] [] true) laterFirst)
      = [(H1, 5000); (H2, -15000)]
    ∧ row <$> parquet out = [(80000, H1)]
    ∧ length (metaCSV out) = 2%nat
    ∧ length <$> txCSV out = Some 2%nat
    ∧ parquet out
      = filter kept
          (sortedSlice ascending
             (enriched (S := included) ascending (run ["in.csv"] [] true) laterFirst)).
Proof.
  eexists. split; [vm_compute; reflexivity|].
  split; [vm_compute; reflexivity|]. split; [reflexivity|].
  split; [reflexivity|]. split; [reflexivity|].
  eapply (late_inclusion_skipped (S := included) ascending
            (run ["in.csv"] [] true) laterFirst).
  vm_compute. reflexivity.
Defined.

(** Witness of C10: with the transactions CSV of an earlier run in place
    and [--write-tx-csv] off, the run ends at the check of that path. *)
Lemma existing_output_aborts_witness :
  writeTxCSV (run ["in.csv"] [] false) = false
  ∧ mergeTransactions (S := services) ascending (run ["in.csv"] [] false) leftOver
      = Aborted (OutputExists "out/transactions.csv").
Proof.
  split; [reflexivity|].
  assert (Hin : "out/transactions.csv" ∈
                  [fnParquetTxs (run ["in.csv"] [] false);
                   fnCSVMeta (run ["in.csv"] [] false);
                   fnCSVTxs (run ["in.csv"] [] false)]).
  { vm_compute. right. right. left. }
  assert (Hex : is_Some (leftOver !! "out/transactions.csv")).
  { vm_compute. eexists. reflexivity. }
  destruct (existing_output_aborts (S := services) ascending
              (run ["in.csv"] [] false) leftOver "out/transactions.csv" Hin Hex)
    as [H|[H|(fn & H & _)]].
  - vm_compute in H. discriminate.
  - vm_compute in H. discriminate.
  - vm_compute in H. injection H as <-. vm_compute. reflexivity.
Defined.

End MergeProps.

(** ** latencyComp *)

Module AnalyzerProps.
Import Go Common Entry Analyzer Latency.

Lemma wrap64_small z : - 2 ^ 63 ≤ z < 2 ^ 63 → wrap64 z = z.
Proof. intros Hz. unfold wrap64. rewrite Z.mod_small; lia. Qed.


Lemma getInt_insert_eq m k v : getInt (<[k := v]> m) k = v.
Proof. unfold getInt. by rewrite lookup_insert_eq. Qed.

Lemma getInt_insert_ne m k k' v : k ≠ k' → getInt (<[k := v]> m) k' = getInt m k'.
Proof. intros Hne. unfold getInt. by rewrite lookup_insert_ne. Qed.

Section Pair.
Context `{H : Hdr} (src ref : string).

(** *** Step 1 *)

Lemma collectShared_collected acc kv :
  collectShared src ref acc kv
    = if decide (collected src ref kv.2) then <[ToLower kv.1 := ∅]> acc else acc.
Proof.
  unfold collectShared, collected, shared, HasSource.
  destruct (Nat.eqb_spec (length (Sources kv.2)) 1) as [Hlen|Hlen].
  { rewrite decide_False; [done|]. by intros [? _]. }
  destruct (Z.eqb_spec (IncludedAtBlockHeight kv.2) 0) as [Hinc|Hinc].
  { rewrite decide_False; [done|]. by intros [_ [? _]]. }
  destruct (decide (src ∈ Sources kv.2)) as [Hs|Hs].
  - rewrite (bool_decide_eq_true_2 _ Hs). simpl.
    destruct (decide (ref ∈ Sources kv.2)) as [Hr|Hr].
    + rewrite (bool_decide_eq_true_2 _ Hr). simpl. by rewrite decide_True.
    + rewrite (bool_decide_eq_false_2 _ Hr). simpl.
      rewrite decide_False; [done|]. by intros (_ & _ & _ & ?).
  - rewrite (bool_decide_eq_false_2 _ Hs). simpl.
    rewrite decide_False; [done|]. by intros (_ & _ & ? & _).
Qed.


(** *** Step 2 *)








(** *** Step 3 *)

Lemma findBucket_fold l hs :
  foldl (findBucket src ref) hs l
    = (hs.1 ++ filter tracked (omap (sourceFirst src ref) l),
       hs.2 ++ filter tracked (omap (referenceFirst src ref) l)).
Proof.
  revert hs. induction l as [|kv l IH]; intros [s r].
  - simpl. by rewrite !app_nil_r.
  - cbn [foldl]. rewrite IH.
    change (omap (sourceFirst src ref) (kv :: l))
      with (from_option (λ y, y :: omap (sourceFirst src ref) l)
              (omap (sourceFirst src ref) l) (sourceFirst src ref kv)).
    change (omap (referenceFirst src ref) (kv :: l))
      with (from_option (λ y, y :: omap (referenceFirst src ref) l)
              (omap (referenceFirst src ref) l) (referenceFirst src ref kv)).
    unfold findBucket, sourceFirst, referenceFirst, diffOf, RecordValue.
    cbv zeta. cbn [fst snd]. destruct (_ =? 0); [done|].
    destruct (0 <? _); cbn [from_option fst snd]; rewrite filter_cons;
      destruct (decide (tracked _)) as [Ht|Ht]; unfold tracked in Ht;
      try apply not_true_is_false in Ht; rewrite Ht;
      by rewrite <- ?app_assoc.
Qed.
End Pair.

Lemma elem_of_mapRange (rt : GoRuntime) {V} (m : gmap string V) kv :
  kv ∈ mapRange rt m ↔ m !! kv.1 = Some kv.2.
Proof. rewrite mapRange_perm. apply elem_of_map_to_list'. Qed.

Lemma NoDup_mapRange (rt : GoRuntime) {V} (m : gmap string V) :
  NoDup (mapRange rt m).*1.
Proof. rewrite mapRange_perm. apply NoDup_fst_map_to_list. Qed.

Lemma NoDup_fst_filter {V} (P : string * V → Prop) `{∀ x, Decision (P x)}
    (l : list (string * V)) :
  NoDup l.*1 → NoDup (filter P l).*1.
Proof.
  induction l as [|kv l IH]; simpl; [done|].
  intros [Hnotin Hnd]%NoDup_cons. rewrite filter_cons.
  destruct (decide (P kv)); [|by apply IH].
  simpl. apply NoDup_cons. split; [|by apply IH].
  intros (kv' & Hk & [_ Hin]%list_elem_of_filter)%list_elem_of_fmap.
  apply Hnotin. apply list_elem_of_fmap. eauto.
Qed.






Section Run.
Context (rt : GoRuntime) `{H : Hdr} (a : Analyzer2Opts) (src ref : string).
Hypothesis Htx : lowercased (Transactions a).
Hypothesis Hsl : lowercased (Sourelog a).
Hypothesis Hlog : sourcesLogged a.
Hypothesis Hrange : timestampsInRange a.

















End Run.

#[local] Existing Instance Demo.hdr.


End AnalyzerProps.

(** * Further properties of the code *)

(** ** Text: decimal numbers, fields and lines *)

Module TextMore.
Import Go Eth Common Entry Merge Lines Reading.

Lemma length_append s1 s2 :
  String.length (s1 +:+ s2) = (String.length s1 + String.length s2)%nat.
Proof. induction s1 as [|c s1 IH]; simpl; [done|]. by rewrite IH. Qed.

Lemma append_assoc s1 s2 s3 : (s1 +:+ s2) +:+ s3 = s1 +:+ (s2 +:+ s3).
Proof.
  induction s1 as [|c s1 IH]; [reflexivity|].
  change (String c ((s1 +:+ s2) +:+ s3) = String c (s1 +:+ (s2 +:+ s3))).
  by rewrite IH.
Qed.

(** *** [Atoi] reads back what [itoa] prints *)

Lemma digits_acc d acc :
  digits (Z.pos acc) (NilEmpty.string_of_uint d) = Some (Z.pos (Pos.of_uint_acc d acc)).
Proof.
  revert acc. induction d as [|d IH|d IH|d IH|d IH|d IH|d IH|d IH|d IH|d IH|d IH];
    intros acc; [done|..]; simpl; rewrite <- IH; f_equal; lia.
Qed.

Lemma digits_uint d :
  digits 0 (NilEmpty.string_of_uint d) = Some (Z.of_N (Pos.of_uint d)).
Proof.
  induction d as [|d IH|d IH|d IH|d IH|d IH|d IH|d IH|d IH|d IH|d IH];
    [done|exact IH|..]; apply (digits_acc d).
Qed.

Lemma string_of_uint_head d :
  d ≠ Decimal.Nil →
  ∃ c r, NilEmpty.string_of_uint d = String c r
       ∧ Ascii.eqb c "-" = false ∧ Ascii.eqb c "+" = false.
Proof. destruct d; [done|..]; intros _; simpl; eauto. Qed.

Lemma unsigned_pos p :
  unsignedDigits (NilEmpty.string_of_uint (Pos.to_uint p)) = Some (Z.pos p).
Proof.
  destruct (string_of_uint_head _ (DecimalPos.Unsigned.to_uint_nonnil p))
    as (c & r & Hs & _ & _).
  unfold unsignedDigits. rewrite Hs, <- Hs, digits_uint.
  by rewrite DecimalPos.Unsigned.of_to.
Qed.

Lemma itoa_pos p : itoa (Z.pos p) = NilEmpty.string_of_uint (Pos.to_uint p).
Proof.
  unfold itoa. simpl. unfold NilZero.string_of_uint.
  pose proof (DecimalPos.Unsigned.to_uint_nonnil p).
  by destruct (Pos.to_uint p).
Qed.

Lemma itoa_neg p :
  itoa (Z.neg p) = String "-" (NilEmpty.string_of_uint (Pos.to_uint p)).
Proof.
  unfold itoa. simpl. unfold NilZero.string_of_uint.
  pose proof (DecimalPos.Unsigned.to_uint_nonnil p).
  by destruct (Pos.to_uint p).
Qed.

Lemma Atoi_minus r :
  Atoi (String "-" r)
    = match Z.opp <$> unsignedDigits r with
      | Some z => if inInt64 z then Some z else None
      | None => None
      end.
Proof. reflexivity. Qed.

Lemma Atoi_itoa z : inInt64 z = true → Atoi (itoa z) = Some z.
Proof.
  intros Hz. destruct z as [|p|p].
  - reflexivity.
  - rewrite itoa_pos.
    destruct (string_of_uint_head _ (DecimalPos.Unsigned.to_uint_nonnil p))
      as (c & r & Hs & Hm & Hp).
    unfold Atoi. rewrite Hs, Hm, Hp, <- Hs, unsigned_pos. by rewrite Hz.
  - rewrite itoa_neg, Atoi_minus, unsigned_pos.
    cbv [fmap option_fmap option_map].
    change (- Z.pos p) with (Z.neg p). by rewrite Hz.
Qed.

(** *** Bytes that do not occur *)

Lemma without_append c s1 s2 :
  without c (s1 +:+ s2) = without c s1 && without c s2.
Proof.
  induction s1 as [|a s1 IH]; simpl; [done|]. rewrite IH. by destruct (Ascii.eqb a c).
Qed.

Lemma uint_without_comma d : without comma (NilEmpty.string_of_uint d) = true.
Proof. induction d; simpl; try done. Qed.

Lemma uint_without_newline d : without newline (NilEmpty.string_of_uint d) = true.
Proof. induction d; simpl; try done. Qed.

Lemma itoa_without_comma z : without comma (itoa z) = true.
Proof.
  destruct z as [|p|p]; [done|..]; rewrite ?itoa_pos, ?itoa_neg; simpl;
    apply uint_without_comma.
Qed.

Lemma itoa_without_newline z : without newline (itoa z) = true.
Proof.
  destruct z as [|p|p]; [done|..]; rewrite ?itoa_pos, ?itoa_neg; simpl;
    apply uint_without_newline.
Qed.

Lemma itoa_nonempty z : (1 ≤ String.length (itoa z))%nat.
Proof.
  destruct z as [|p|p]; [simpl; lia|..]; rewrite ?itoa_pos, ?itoa_neg.
  - destruct (string_of_uint_head _ (DecimalPos.Unsigned.to_uint_nonnil p))
      as (c & r & -> & _). simpl. lia.
  - simpl. lia.
Qed.

(** *** Split and Trim *)

Lemma Split_nonempty sep s : Split sep s ≠ [].
Proof.
  destruct s as [|a s]; simpl; [done|].
  destruct (Ascii.eqb a sep); [done|]. by destruct (Split sep s).
Qed.

Lemma Split_without sep s : without sep s = true → Split sep s = [s].
Proof.
  induction s as [|a s IH]; simpl; [done|].
  destruct (Ascii.eqb a sep); [done|]. simpl. intros Hs. by rewrite (IH Hs).
Qed.

Lemma Split_field sep s rest :
  without sep s = true →
  Split sep (s +:+ String sep rest) = s :: Split sep rest.
Proof.
  induction s as [|a s IH]; simpl.
  - intros _. by rewrite Ascii.eqb_refl.
  - destruct (Ascii.eqb a sep); [done|]. simpl. intros Hs. by rewrite (IH Hs).
Qed.

Lemma Split_concat sep fields :
  fields ≠ [] → Forall (λ f, without sep f = true) fields →
  Split sep (String.concat (String sep "") fields) = fields.
Proof.
  induction fields as [|f fields IH]; [done|]. intros _ [Hf Hfs]%Forall_cons.
  destruct fields as [|g fields].
  - simpl. by apply Split_without.
  - change (String.concat (String sep "") (f :: g :: fields))
      with (f +:+ String sep (String.concat (String sep "") (g :: fields))).
    rewrite Split_field by done. by rewrite IH.
Qed.

Lemma TrimLeft_without c s : without c s = true → TrimLeft c s = s.
Proof. destruct s as [|a s]; simpl; [done|]. by destruct (Ascii.eqb a c). Qed.

Lemma TrimRight_without c s : without c s = true → TrimRight c s = s.
Proof.
  induction s as [|a s IH]; simpl; [done|].
  destruct (Ascii.eqb a c) eqn:Ha; [done|]. simpl. intros Hs. rewrite (IH Hs).
  by destruct s.
Qed.

Lemma TrimRight_terminator c s :
  TrimRight c (s +:+ String c "") = TrimRight c s.
Proof.
  induction s as [|a s IH]; simpl.
  - by rewrite Ascii.eqb_refl.
  - by rewrite IH.
Qed.

Lemma TrimLeft_append c s1 s2 :
  s1 ≠ "" → without c s1 = true → TrimLeft c (s1 +:+ s2) = s1 +:+ s2.
Proof. destruct s1 as [|a s1]; [done|]. simpl. by destruct (Ascii.eqb a c). Qed.

(** A line in the format of the transactions CSV ([%d,%s,%s] and a
    newline) is read back as it was written. *)
Lemma txLine_parseLine (ts : Z) (hash raw : string) :
  inInt64 ts = true →
  String.length hash = 66%nat →
  without comma hash = true → without newline hash = true →
  without comma raw = true → without newline raw = true →
  parseLine (txLine ts hash raw) = Some (ts, ToLower hash, raw).
Proof.
  intros Hts Hlen Hch Hnh Hcr Hnr. unfold parseLine, txLine.
  assert (Hlong : (String.length
            (itoa ts +:+ "," +:+ hash +:+ "," +:+ raw +:+ String newline "")
            <? 66)%nat = false).
  { apply Nat.ltb_ge. rewrite !length_append, Hlen. lia. }
  rewrite Hlong.
  assert (Hbody : Trim newline
            (itoa ts +:+ "," +:+ hash +:+ "," +:+ raw +:+ String newline "")
            = itoa ts +:+ "," +:+ hash +:+ "," +:+ raw).
  { unfold Trim. rewrite TrimLeft_append.
    - replace (itoa ts +:+ "," +:+ hash +:+ "," +:+ raw +:+ String newline "")
        with ((itoa ts +:+ "," +:+ hash +:+ "," +:+ raw) +:+ String newline "").
      + rewrite TrimRight_terminator. apply TrimRight_without.
        rewrite !without_append, itoa_without_newline, Hnh, Hnr. reflexivity.
      + by rewrite !append_assoc.
    - pose proof (itoa_nonempty ts) as Hne. intros Heq. rewrite Heq in Hne.
      simpl in Hne. lia.
    - apply itoa_without_newline. }
  rewrite Hbody.
  change (itoa ts +:+ "," +:+ hash +:+ "," +:+ raw)
    with (itoa ts +:+ String comma (hash +:+ String comma raw)).
  rewrite Split_field by apply itoa_without_comma.
  rewrite Split_field by done. rewrite Split_without by done.
  by rewrite Atoi_itoa.
Qed.

(** X1. The line the merger writes to the transactions CSV for an entry
    ([%d,%s,%s] and a newline) is read back by the loader as the entry's
    timestamp, hash (lower-cased) and raw transaction, when the timestamp
    is an [int64], the hash has 66 bytes, and neither the hash nor the raw
    transaction contains a comma or a newline. *)
Theorem written_row_read_back (tx : TxEntry) :
  inInt64 (EntryTimestamp tx) = true →
  String.length (EntryHash tx) = 66%nat →
  without comma (EntryHash tx) = true → without newline (EntryHash tx) = true →
  without comma (RawTxHex tx) = true → without newline (RawTxHex tx) = true →
  parseLine (txRow tx +:+ String newline "")
    = Some (EntryTimestamp tx, ToLower (EntryHash tx), RawTxHex tx).
Proof.
  intros. unfold txRow. rewrite !append_assoc.
  by apply (txLine_parseLine (EntryTimestamp tx) (EntryHash tx) (RawTxHex tx)).
Qed.

(** *** The columns of a metadata row *)

Lemma hexOfByte_lower b : Forall (λ c, hexLower c = true) (hexOfByte b).
Proof. destruct b; repeat constructor. Qed.

Lemma hexChars_lower bs : Forall (λ c, hexLower c = true) (hexChars bs).
Proof.
  induction bs as [|b bs IH]; [constructor|].
  apply Forall_app. split; [apply hexOfByte_lower|exact IH].
Qed.

Lemma hexLower_not_comma c : hexLower c = true → Ascii.eqb c comma = false.
Proof. destruct c as [[] [] [] [] [] [] [] []]; done. Qed.

Lemma chars_without c (l : list ascii) :
  Forall (λ a, Ascii.eqb a c = false) l → without c (string_of_list_ascii l) = true.
Proof. induction 1 as [|a l Ha _ IH]; simpl; [done|]. by rewrite Ha. Qed.

Lemma Encode_without_comma bs : without comma (Encode bs) = true.
Proof.
  unfold Encode. change (without comma (string_of_list_ascii (hexChars bs)) = true).
  apply chars_without. eapply Forall_impl; [apply hexChars_lower|].
  apply hexLower_not_comma.
Qed.

Section WithLib.
Context `{L : Lib}.

Lemma checksumChar_not_comma hash i c :
  hexLower c = true → Ascii.eqb (checksumChar hash i c) comma = false.
Proof.
  unfold checksumChar. destruct (_ && _); [|apply hexLower_not_comma].
  destruct c as [[] [] [] [] [] [] [] []]; done.
Qed.

Lemma imap_not_comma (f : nat → ascii → ascii) (l : list ascii) :
  (∀ i c, hexLower c = true → Ascii.eqb (f i c) comma = false) →
  Forall (λ c, hexLower c = true) l →
  Forall (λ a, Ascii.eqb a comma = false) (imap f l).
Proof.
  intros Hf Hl. revert f Hf. induction Hl as [|c l Hc _ IH]; intros f Hf.
  - constructor.
  - rewrite imap_cons. constructor; [by apply Hf|]. apply IH.
    intros i c'. apply Hf.
Qed.

Lemma AddressHex_without_comma a : without comma (AddressHex a) = true.
Proof.
  unfold AddressHex.
  change (without comma (string_of_list_ascii
            (imap (checksumChar (keccak256 (byte_of_ascii <$> hexChars a)))
               (hexChars a))) = true).
  apply chars_without, imap_not_comma; [|apply hexChars_lower].
  intros i c. apply checksumChar_not_comma.
Qed.

(** X2. A metadata row splits back into its columns: for every entry
    [parseTx] returns, the thirteen fields of [ToCSVRow], as many as the
    header has, contain no comma, so splitting the joined row at the commas
    gives the fields again. *)
Theorem metadata_row_columns (timestampMs : Z) (hash rawTx : string)
    (s : TxSummaryEntry) (tx : Transaction) :
  parseTx timestampMs hash rawTx = inr (s, tx) →
  length (ToCSVRow s) = length TxSummaryEntryCSVHeader
  ∧ Split comma (String.concat "," (ToCSVRow s)) = ToCSVRow s.
Proof.
  intros Hp. split; [reflexivity|]. apply Split_concat; [done|].
  unfold parseTx in Hp. destruct (RLPStringToTx rawTx) as [|tx0]; [done|].
  destruct (Sender tx0) as [from ?]. injection Hp as <- <-.
  unfold ToCSVRow. cbn [Timestamp Hash ChainID From To Value Nonce Gas GasPrice
    GasTipCap GasFeeCap DataSize Data4Bytes].
  repeat (apply Forall_cons; split); try apply itoa_without_comma;
    try apply AddressHex_without_comma; try apply Encode_without_comma;
    try apply Forall_nil; try exact I.
  - unfold toOf. destruct (tx_To tx0); [apply AddressHex_without_comma|done].
  - unfold data4BytesOf. destruct (_ <=? _)%nat; [apply Encode_without_comma|done].
Qed.
End WithLib.

#[local] Existing Instance Demo.lib.
#[local] Existing Instance Demo.csv.

Lemma written_row_read_back_witness :
  ∃ e, LoadTransactionCSVFiles Demo.laterFirst ["in.csv"] [] !! Demo.H1 = Some e
     ∧ txRow (ofEnvelope e) = "80000," +:+ Demo.H1 +:+ ",0x02aa"
     ∧ parseLine (txRow (ofEnvelope e) +:+ String newline "")
       = Some (EntryTimestamp (ofEnvelope e), ToLower (EntryHash (ofEnvelope e)),
               RawTxHex (ofEnvelope e)).
Proof.
  eexists. split; [vm_compute; reflexivity|]. split; [vm_compute; reflexivity|].
  apply (written_row_read_back (ofEnvelope _)); vm_compute; reflexivity.
Defined.

Lemma metadata_row_columns_witness :
  ∃ s tx, parseTx 1000 Demo.H1 Demo.rawA = inr (s, tx)
        ∧ length (ToCSVRow s) = 13%nat
        ∧ length (ToCSVRow s) = length TxSummaryEntryCSVHeader
        ∧ Split comma (String.concat "," (ToCSVRow s)) = ToCSVRow s.
Proof.
  eexists _, _. split; [vm_compute; reflexivity|]. split; [reflexivity|].
  eapply (metadata_row_columns 1000 Demo.H1 Demo.rawA). vm_compute. reflexivity.
Defined.

End TextMore.

(** ** The loaders *)

Module LoaderMore.
Import Go Eth Common Lines Reading LoaderProps.

Lemma lowerByte_idem c : lowerByte (lowerByte c) = lowerByte c.
Proof. destruct c as [[] [] [] [] [] [] [] []]; reflexivity. Qed.

Lemma ToLower_idem s : ToLower (ToLower s) = ToLower s.
Proof. induction s as [|c s IH]; simpl; [done|]. by rewrite lowerByte_idem, IH. Qed.

Lemma parseLine_lower l ts h raw : parseLine l = Some (ts, h, raw) → ToLower h = h.
Proof.
  unfold parseLine. intros H. repeat case_match; try discriminate.
  injection H as <- <- <-. apply ToLower_idem.
Qed.

Lemma occurrence_line h l o :
  occurrence h l = Some o → parseLine l = Some (o.1, h, o.2).
Proof.
  unfold occurrence. destruct (parseLine l) as [[[ts h'] raw]|]; [|done].
  destruct (decide (h' = h)) as [->|]; [|done]. by intros [= <-].
Qed.

Section WithLib.
Context `{L : Lib} `{C : Csv}.

Lemma loadTxFiles_linesRead fs known files txs :
  loadTxFiles fs known files txs = loadLines known txs (linesRead fs files).
Proof.
  revert txs. induction files as [|f files IH]; intros txs; [done|].
  simpl. destruct (osOpen fs f) as [|n]; [done|].
  by rewrite loadLines_app, IH.
Qed.

Lemma loaded_lookup fs files knownTxsFiles h :
  LoadTransactionCSVFiles fs files knownTxsFiles !! h =
    if getBool (LoadTxHashesFromMetadataCSVFiles fs knownTxsFiles) h then None
    else foldl (settle h) None (occurrences h (linesRead fs files)).
Proof.
  unfold LoadTransactionCSVFiles. rewrite loadTxFiles_linesRead.
  destruct (getBool _ h) eqn:Hk.
  - by rewrite loadLines_lookup_known.
  - by rewrite loadLines_lookup.
Qed.

Lemma parseTx_retime ts h raw s tx ts' h' :
  parseTx ts h raw = inr (s, tx) →
  parseTx ts' h' raw
    = inr (Summary (setTimestamp ts' {| Rlp := raw; Summary := s |}), tx).
Proof.
  unfold parseTx. destruct (RLPStringToTx raw) as [|tx0]; [done|].
  destruct (Sender tx0) as [from ?]. by intros [= <- <-].
Qed.

(** X3. Every key of the map the loader returns is lower-case, is not in
    the blacklist that was loaded, and is the hash column of a line that was
    read and passed the checks. *)
Theorem loaded_keys (fs : gmap string Node) (files knownTxsFiles : list string)
    (h : string) (e : TxEnvelope) :
  LoadTransactionCSVFiles fs files knownTxsFiles !! h = Some e →
  ToLower h = h
  ∧ getBool (LoadTxHashesFromMetadataCSVFiles fs knownTxsFiles) h = false
  ∧ ∃ l ts raw, l ∈ linesRead fs files ∧ parseLine l = Some (ts, h, raw).
Proof.
  rewrite loaded_lookup. destruct (getBool _ h); [done|]. intros He.
  apply settle_first in He as (pre & ts0 & raw0 & post & s & tx & Hocc & _).
  assert (Hin : (ts0, raw0) ∈ occurrences h (linesRead fs files)).
  { rewrite Hocc. apply elem_of_app. right. by left. }
  apply list_elem_of_omap in Hin as (l & Hl & Ho). apply occurrence_line in Ho.
  split; [by eapply parseLine_lower|]. split; [done|]. eauto.
Qed.

(** X4. Every entry of the map is the decoding of its own raw transaction:
    [parseTx] on the entry's raw text gives the entry's summary, so the
    summary's hash is the hash of the raw transaction whatever the hash
    column of the line said. *)
Theorem loaded_entry_decodes (fs : gmap string Node)
    (files knownTxsFiles : list string) (h : string) (e : TxEnvelope) :
  LoadTransactionCSVFiles fs files knownTxsFiles !! h = Some e →
  ∃ tx, RLPStringToTx (Rlp e) = inr tx
      ∧ parseTx (Timestamp (Summary e)) h (Rlp e) = inr (Summary e, tx)
      ∧ Hash (Summary e) = HashHex (tx_Hash tx).
Proof.
  rewrite loaded_lookup. destruct (getBool _ h); [done|]. intros He.
  apply settle_first in He as (pre & ts0 & raw0 & post & s & tx & _ & _ & Hp & ->).
  exists tx. simpl. split; [|split].
  - unfold parseTx in Hp. destruct (RLPStringToTx raw0) as [|tx0]; [done|].
    destruct (Sender tx0). by injection Hp as _ <-.
  - by apply (parseTx_retime ts0 h).
  - unfold parseTx in Hp. destruct (RLPStringToTx raw0) as [|tx0]; [done|].
    destruct (Sender tx0). by injection Hp as <- <-.
Qed.

(** X5. Once a hash has an entry, reading further lines never removes or
    replaces it: the raw transaction and the decoded fields stay, and the
    timestamp can only go down. *)
Theorem stored_entry_only_lowered (prevKnownTxs : gmap string bool)
    (txs : gmap string TxEnvelope) (lines : list string) (h : string)
    (e : TxEnvelope) :
  txs !! h = Some e →
  ∃ ts, loadLines prevKnownTxs txs lines !! h = Some (setTimestamp ts e)
      ∧ ts ≤ Timestamp (Summary e).
Proof.
  intros He. destruct (getBool prevKnownTxs h) eqn:Hk.
  - exists (Timestamp (Summary e)).
    rewrite loadLines_lookup_known, He, setTimestamp_same by done. split; [done|lia].
  - rewrite loadLines_lookup, He, settle_stored by done.
    eexists. split; [done|]. apply minTimestamp_le.
Qed.

(** X6. A file that cannot be opened ends the loading: the files listed
    after it are never read, and the result is that of the files before
    it. *)
Theorem unopenable_file_ends_loading (fs : gmap string Node)
    (pre post knownTxsFiles : list string) (f : string) (err : error) :
  osOpen fs f = inl err →
  LoadTransactionCSVFiles fs (pre ++ f :: post) knownTxsFiles
    = LoadTransactionCSVFiles fs pre knownTxsFiles.
Proof.
  intros Hf. unfold LoadTransactionCSVFiles.
  generalize (LoadTxHashesFromMetadataCSVFiles fs knownTxsFiles) as known.
  intros known. generalize (∅ : gmap string TxEnvelope) as txs.
  induction pre as [|p pre IH]; intros txs; simpl.
  - by rewrite Hf.
  - destruct (osOpen fs p); [done|]. apply IH.
Qed.

(** *** The blacklist *)

Lemma loadTxHashes_recordsRead fs files txs :
  loadTxHashes fs files txs = foldl addRecord txs (recordsRead fs files).
Proof.
  revert txs. induction files as [|f files IH]; intros txs; [done|].
  simpl. destruct (osOpen fs f) as [|n]; [done|].
  destruct (csvReadAll n) as [|records]; [done|].
  by rewrite foldl_app, IH.
Qed.

Lemma addRecord_lookup txs record h v :
  addRecord txs record !! h = Some v →
  txs !! h = Some v ∨ (v = true ∧ ∃ h', hashColumn record = Some h' ∧ ToLower h' = h).
Proof.
  unfold addRecord, hashColumn. destruct record as [|c0 [|h' rest]]; eauto.
  destruct (decide (ToLower h' = h)) as [<-|Hne].
  - rewrite lookup_insert_eq. intros [= <-]. right. eauto.
  - rewrite lookup_insert_ne by done. eauto.
Qed.

Lemma addRecords_lookup txs records h v :
  foldl addRecord txs records !! h = Some v →
  txs !! h = Some v
  ∨ (v = true ∧ ∃ r h', r ∈ records ∧ hashColumn r = Some h' ∧ ToLower h' = h).
Proof.
  revert txs. induction records as [|r records IH]; intros txs; [by left|].
  simpl. intros [H|(-> & r' & h' & Hin & Hr)]%IH.
  - apply addRecord_lookup in H as [?|(-> & h' & ? & ?)]; [by left|].
    right. split; [done|]. exists r, h'. split; [by left|done].
  - right. split; [done|]. exists r', h'. split; [by right|done].
Qed.

Lemma addRecords_hashColumn txs records r h' :
  r ∈ records → hashColumn r = Some h' →
  foldl addRecord txs records !! ToLower h' = Some true.
Proof.
  intros Hin Hr. destruct r as [|c0 [|h'' rest]]; try done.
  injection Hr as ->.
  pose proof (addRecords_add txs records c0 h' rest Hin) as Hget.
  unfold getBool in Hget.
  destruct (foldl addRecord txs records !! ToLower h') as [[]|] eqn:Hl; done.
Qed.

(** X7. The blacklist holds exactly the lower-cased second columns of the
    records read, each mapped to [true]; a record with fewer than two
    fields adds nothing, and every key is lower-case. *)
Theorem blacklist_is_hash_column (fs : gmap string Node) (files : list string)
    (h : string) (v : bool) :
  LoadTxHashesFromMetadataCSVFiles fs files !! h = Some v ↔
    v = true ∧ ∃ r h', r ∈ recordsRead fs files
                       ∧ hashColumn r = Some h' ∧ ToLower h' = h.
Proof.
  unfold LoadTxHashesFromMetadataCSVFiles. rewrite loadTxHashes_recordsRead. split.
  - intros [H|H]%addRecords_lookup; [by rewrite lookup_empty in H|done].
  - intros (-> & r & h' & Hin & Hr & <-). by eapply addRecords_hashColumn.
Qed.

(** X8. A blacklist file that cannot be opened, or that the CSV reader
    rejects, ends the loading of the blacklist: the result is that of the
    files listed before it, and nothing of it or of the files after it is
    blacklisted. *)
Theorem bad_blacklist_file_ends_loading (fs : gmap string Node)
    (pre post : list string) (f : string) :
  (∀ n records, osOpen fs f = inr n → csvReadAll n ≠ inr records) →
  LoadTxHashesFromMetadataCSVFiles fs (pre ++ f :: post)
    = LoadTxHashesFromMetadataCSVFiles fs pre.
Proof.
  intros Hf. unfold LoadTxHashesFromMetadataCSVFiles.
  generalize (∅ : gmap string bool) as txs.
  induction pre as [|p pre IH]; intros txs; simpl.
  - destruct (osOpen fs f) as [|n] eqn:Hn; [done|].
    destruct (csvReadAll n) as [|records] eqn:Hr; [done|].
    by destruct (Hf n records).
  - destruct (osOpen fs p) as [|n]; [done|].
    destruct (csvReadAll n); [done|]. apply IH.
Qed.
End WithLib.

#[local] Existing Instance Demo.lib.
#[local] Existing Instance Demo.csv.

Lemma loaded_keys_witness :
  ∃ e, LoadTransactionCSVFiles Demo.goodThenBad ["in.csv"] [] !! Demo.H1 = Some e
     ∧ ToLower Demo.H1 = Demo.H1
     ∧ getBool (LoadTxHashesFromMetadataCSVFiles Demo.goodThenBad []) Demo.H1 = false
     ∧ ∃ l ts raw, l ∈ linesRead Demo.goodThenBad ["in.csv"]
                   ∧ parseLine l = Some (ts, Demo.H1, raw).
Proof.
  destruct (LoadTransactionCSVFiles Demo.goodThenBad ["in.csv"] [] !! Demo.H1)
    as [e|] eqn:He.
  - exists e. split; [reflexivity|].
    exact (loaded_keys Demo.goodThenBad ["in.csv"] [] Demo.H1 e He).
  - vm_compute in He. discriminate.
Defined.

Lemma loaded_entry_decodes_witness :
  ∃ e, LoadTransactionCSVFiles Demo.goodThenBad ["in.csv"] [] !! Demo.H1 = Some e
     ∧ ∃ tx, RLPStringToTx (Rlp e) = inr tx
           ∧ parseTx (Timestamp (Summary e)) Demo.H1 (Rlp e) = inr (Summary e, tx)
           ∧ Hash (Summary e) = HashHex (tx_Hash tx).
Proof.
  destruct (LoadTransactionCSVFiles Demo.goodThenBad ["in.csv"] [] !! Demo.H1)
    as [e|] eqn:He.
  - exists e. split; [reflexivity|].
    exact (loaded_entry_decodes Demo.goodThenBad ["in.csv"] [] Demo.H1 e He).
  - vm_compute in He. discriminate.
Defined.

Lemma stored_entry_only_lowered_witness :
  ∃ e, LoadTransactionCSVFiles Demo.withBlacklist ["in.csv"] [] !! Demo.H1 = Some e
     ∧ Timestamp (Summary e) = 1000
     ∧ ∃ ts, loadLines ∅ (LoadTransactionCSVFiles Demo.withBlacklist ["in.csv"] [])
               [Demo.line "500" Demo.H1 "0xzz"; Demo.line "700" Demo.H1 Demo.rawB]
               !! Demo.H1
             = Some (setTimestamp ts e)
           ∧ ts ≤ Timestamp (Summary e).
Proof.
  destruct (LoadTransactionCSVFiles Demo.withBlacklist ["in.csv"] [] !! Demo.H1)
    as [e|] eqn:He.
  - exists e. split; [reflexivity|].
    split; [vm_compute in He; injection He as <-; reflexivity|].
    exact (stored_entry_only_lowered ∅ _ _ Demo.H1 e He).
  - vm_compute in He. discriminate.
Defined.

Lemma unopenable_file_ends_loading_witness :
  ∃ err, osOpen Demo.withLocked "locked.csv" = inl err
       ∧ LoadTransactionCSVFiles Demo.withLocked
           ([] ++ "locked.csv" :: ["in.csv"]) []
         = LoadTransactionCSVFiles Demo.withLocked [] [].
Proof.
  eexists. split; [vm_compute; reflexivity|].
  eapply (unopenable_file_ends_loading Demo.withLocked [] ["in.csv"] [] "locked.csv").
  vm_compute. reflexivity.
Defined.

Lemma bad_blacklist_file_ends_loading_witness :
  LoadTxHashesFromMetadataCSVFiles Demo.withBlacklist
    ([] ++ "missing.csv" :: ["known.csv"])
  = LoadTxHashesFromMetadataCSVFiles Demo.withBlacklist [].
Proof.
  apply (bad_blacklist_file_ends_loading Demo.withBlacklist [] ["known.csv"]
           "missing.csv").
  intros n records Hopen. vm_compute in Hopen. discriminate.
Defined.
End LoaderMore.

(** ** The merger *)

Module MergeMore.
Import Go Eth Common Entry Merge Running MergeProps.

Section WithWorld.
Context (rt : GoRuntime) `{L : Lib} `{C : Csv} `{S : Services}.

(** X9. The sources the merger gives an entry are the sources the
    sourcelog has for its hash, each once, in non-decreasing order of their
    logged timestamps (none when the hash is not in the sourcelog); nothing
    else of the entry changes and no entry is added or dropped. *)
Theorem sources_in_order_of_arrival (sourcelog : gmap string (gmap string Z))
    (txs : gmap string TxEntry) (hash : string) :
  updateSources rt sourcelog txs !! hash
    = setSources (sourcesOf rt sourcelog hash) <$> txs !! hash
  ∧ ∃ logged : list (string * Z),
      sourcesOf rt sourcelog hash = logged.*1
      ∧ logged ≡ₚ map_to_list (default ∅ (sourcelog !! hash))
      ∧ StronglySorted (λ x y, x.2 ≤ y.2) logged.
Proof.
  split.
  - unfold updateSources. rewrite map_lookup_imap. by destruct (txs !! hash).
  - exists (sortSlice rt snd (mapRange rt (default ∅ (sourcelog !! hash)))).
    split; [done|]. split.
    + by rewrite sortSlice_perm, mapRange_perm.
    + apply (sortSlice_sorted rt _ snd).
Qed.

(** X10. A finished run hands every loaded transaction to the Parquet
    writer exactly once, except the ones it skips for their inclusion
    delay: the rows are, up to order, the enriched entries with a delay
    above -12000. *)
Theorem every_entry_written_once (c : Config) (fs : gmap string Node) (out : Output) :
  mergeTransactions rt c fs = Finished out →
  parquet out ≡ₚ filter kept (map_to_list (enriched rt c fs)).*2.
Proof.
  intros ->%finished_enriched. rewrite writeOutput_filter. simpl.
  by rewrite sortedSlice_perm.
Qed.

(** X11. Every row a finished run writes comes from an entry the loader
    returned: it is that entry with the sources of its hash, after the
    inclusion probe. *)
Theorem written_rows_were_loaded (c : Config) (fs : gmap string Node) (out : Output)
    (row : TxEntry) :
  mergeTransactions rt c fs = Finished out →
  row ∈ parquet out →
  ∃ h e,
    LoadTransactionCSVFiles (prepared c fs) (inputFiles c) (knownTxsFiles c) !! h
      = Some e
    ∧ row = UpdateInclusionStatus (checkNodeURI c)
              (setSources
                 (sourcesOf rt (LoadSourcelogFiles (prepared c fs) (sourcelogFiles c)) h)
                 (ofEnvelope e)).
Proof.
  intros ->%finished_enriched Hrow. rewrite writeOutput_filter in Hrow.
  simpl in Hrow. apply list_elem_of_filter in Hrow as [_ Hrow].
  rewrite sortedSlice_perm in Hrow.
  apply list_elem_of_fmap in Hrow as ([h row'] & -> & Hin).
  apply elem_of_map_to_list in Hin. unfold enriched in Hin.
  rewrite lookup_fmap in Hin. unfold updateSources in Hin.
  rewrite map_lookup_imap, lookup_fmap in Hin.
  destruct (LoadTransactionCSVFiles _ _ _ !! h) as [e|] eqn:He; [|done].
  simpl in Hin. injection Hin as <-. eauto.
Qed.

(** X12. The three files of a finished run list the same transactions in
    the same order: after its header the metadata CSV has the row of each
    Parquet row, and so has the transactions CSV when it is written; it is
    written exactly when the flag is set. *)
Theorem outputs_aligned (c : Config) (fs : gmap string Node) (out : Output) :
  mergeTransactions rt c fs = Finished out →
  metaCSV out = csvHeader :: (metaRow <$> parquet out)
  ∧ txCSV out = (if writeTxCSV c then Some (txCSVHeader :: (txRow <$> parquet out))
                 else None).
Proof.
  intros ->%finished_enriched. by rewrite writeOutput_filter.
Qed.
End WithWorld.

#[local] Existing Instance Demo.lib.
#[local] Existing Instance Demo.csv.

Lemma every_entry_written_once_witness :
  ∃ out,
    mergeTransactions (S := Demo.services) Demo.ascending
      (Demo.run ["in.csv"] [] false) Demo.laterFirst = Finished out
    ∧ Demo.row <$> parquet out = [(80000, Demo.H1); (100000, Demo.H2)]
    ∧ parquet out
      ≡ₚ filter kept
           (map_to_list
              (enriched (S := Demo.services) Demo.ascending
                 (Demo.run ["in.csv"] [] false) Demo.laterFirst)).*2.
Proof.
  eexists. split; [vm_compute; reflexivity|]. split; [reflexivity|].
  eapply (every_entry_written_once (S := Demo.services) Demo.ascending
            (Demo.run ["in.csv"] [] false) Demo.laterFirst).
  vm_compute. reflexivity.
Defined.

Lemma written_rows_were_loaded_witness :
  ∃ out row,
    mergeTransactions (S := Demo.included) Demo.descending
      (Demo.run ["in.csv"] [] true) Demo.laterFirst = Finished out
    ∧ parquet out !! 0%nat = Some row
    ∧ ∃ h e,
        LoadTransactionCSVFiles
          (prepared (Demo.run ["in.csv"] [] true) Demo.laterFirst) ["in.csv"] [] !! h
          = Some e
        ∧ row = UpdateInclusionStatus (Services := Demo.included) ""
                  (setSources
                     (sourcesOf Demo.descending
                        (LoadSourcelogFiles (Services := Demo.included)
                           (prepared (Demo.run ["in.csv"] [] true) Demo.laterFirst) [])
                        h)
                     (ofEnvelope e)).
Proof.
  eexists _, _. split; [vm_compute; reflexivity|]. split; [reflexivity|].
  eapply (written_rows_were_loaded (S := Demo.included) Demo.descending
            (Demo.run ["in.csv"] [] true) Demo.laterFirst).
  - vm_compute. reflexivity.
  - apply list_elem_of_here.
Defined.

Lemma outputs_aligned_witness :
  ∃ out,
    mergeTransactions (S := Demo.services) Demo.ascending
      (Demo.run ["in.csv"] [] true) Demo.laterFirst = Finished out
    ∧ metaCSV out = csvHeader :: (metaRow <$> parquet out)
    ∧ txCSV out = Some (txCSVHeader :: (txRow <$> parquet out)).
Proof.
  eexists. split; [vm_compute; reflexivity|].
  eapply (outputs_aligned (S := Demo.services) Demo.ascending
            (Demo.run ["in.csv"] [] true) Demo.laterFirst).
  vm_compute. reflexivity.
Defined.
End MergeMore.

(** ** The latency comparison *)

Module LatencyMore.
Import Go Common Entry Analyzer Latency AnalyzerProps.

Lemma wrap64_range z : - 2 ^ 63 ≤ wrap64 z < 2 ^ 63.
Proof.
  unfold wrap64.
  assert (0 ≤ (z + 2 ^ 63) mod 2 ^ 64 < 2 ^ 64) by (apply Z.mod_pos_bound; lia).
  lia.
Qed.

Lemma omap_none {A B} (f : A → option B) (l : list A) :
  (∀ x, f x = None) → omap f l = [].
Proof. intros Hf. induction l as [|x l IH]; [done|]. simpl. by rewrite Hf. Qed.

Lemma omap_exclusive_length {A B} (f g : A → option B) (l : list A) :
  (∀ x, f x = None ∨ g x = None) →
  (length (omap f l) + length (omap g l) ≤ length l)%nat.
Proof.
  intros Hfg. induction l as [|x l IH]; [done|].
  change (omap f (x :: l)) with (from_option (λ y, y :: omap f l) (omap f l) (f x)).
  change (omap g (x :: l)) with (from_option (λ y, y :: omap g l) (omap g l) (g x)).
  destruct (Hfg x) as [-> | ->]; [destruct (g x)|destruct (f x)];
    cbn [from_option length]; lia.
Qed.

Lemma mapRange_length (rt : GoRuntime) {V} (m : gmap string V) :
  length (mapRange rt m) = size m.
Proof. by rewrite mapRange_perm, length_map_to_list. Qed.

Section Pair.
Context (rt : GoRuntime) `{H : Hdr} (a : Analyzer2Opts).

(** X13. Comparing a source with itself records nothing in either
    histogram, whatever the data. *)
Theorem same_source_records_nothing (src : string) :
  (latencyComp rt a src src).1 = ([], []).
Proof.
  unfold latencyComp. rewrite findBucket_fold. simpl.
  assert (Hzero : ∀ seen, diffOf src src seen = 0).
  { intros seen. unfold diffOf, sub64. rewrite Z.sub_diag. reflexivity. }
  rewrite !omap_none; [done|..]; intros kv.
  - unfold referenceFirst. by rewrite Hzero.
  - unfold sourceFirst. by rewrite Hzero.
Qed.

Lemma collect_size src ref l acc :
  (size (foldl (collectShared src ref) acc l) ≤ size acc + length l)%nat.
Proof.
  revert acc. induction l as [|kv l IH]; intros acc; simpl; [lia|].
  etrans; [apply IH|]. rewrite collectShared_collected.
  destruct (decide _); [|lia]. rewrite map_size_insert.
  destruct (acc !! _); simpl; lia.
Qed.

Lemma firstTimestamps_size src ref l acc :
  size (foldl (firstTimestamps src ref) acc l) = size acc.
Proof.
  revert acc. induction l as [|kv l IH]; intros acc; simpl; [done|].
  rewrite IH. unfold firstTimestamps.
  destruct (acc !! ToLower kv.1) as [seen|] eqn:Hacc; [|done].
  destruct (_ || _); [done|]. apply map_size_insert_Some. eauto.
Qed.

(** X14. The two histograms together never hold more values than the
    count of shared transactions the function returns, and that count is
    at most the number of transactions: each collected hash records at most
    one value. *)
Theorem histograms_within_count (src ref : string) :
  (length (latencyComp rt a src ref).1.1 + length (latencyComp rt a src ref).1.2
     ≤ (latencyComp rt a src ref).2)%nat
  ∧ ((latencyComp rt a src ref).2 ≤ size (Transactions a))%nat.
Proof.
  unfold latencyComp. rewrite findBucket_fold. simpl. split.
  - etrans; [apply Nat.add_le_mono; apply length_filter|].
    etrans; [apply omap_exclusive_length|by rewrite mapRange_length].
    intros kv. unfold sourceFirst, referenceFirst.
    destruct (_ =? 0); [by left|]. destruct (0 <? _); [by right|by left].
  - rewrite firstTimestamps_size. etrans; [apply collect_size|].
    by rewrite map_size_empty, mapRange_length.
Qed.

(** X15. Every value recorded for the source is a positive [int64]; every
    value recorded for the reference is positive too, unless the
    difference was the smallest [int64], whose negation wraps to itself. *)
Theorem recorded_values_positive (src ref : string) (v : Z) :
  (v ∈ (latencyComp rt a src ref).1.1 → 0 < v < 2 ^ 63)
  ∧ (v ∈ (latencyComp rt a src ref).1.2 → 0 < v < 2 ^ 63 ∨ v = - 2 ^ 63).
Proof.
  unfold latencyComp. rewrite findBucket_fold. simpl. split.
  - intros [_ (kv & _ & Hv)%list_elem_of_omap]%list_elem_of_filter.
    unfold sourceFirst in Hv.
    destruct (_ =? 0); [done|]. destruct (Z.ltb_spec 0 (diffOf src ref kv.2)); [|done].
    injection Hv as <-. pose proof (wrap64_range (getInt kv.2 ref - getInt kv.2 src)).
    unfold diffOf, sub64 in *. lia.
  - intros [_ (kv & _ & Hv)%list_elem_of_omap]%list_elem_of_filter.
    unfold referenceFirst in Hv.
    destruct (Z.eqb_spec (diffOf src ref kv.2) 0); [done|].
    destruct (Z.ltb_spec 0 (diffOf src ref kv.2)); [done|].
    injection Hv as <-. pose proof (wrap64_range (getInt kv.2 ref - getInt kv.2 src)).
    unfold diffOf, sub64 in *.
    destruct (decide (wrap64 (getInt kv.2 ref - getInt kv.2 src) = - 2 ^ 63)) as [->|Hmin].
    + right. reflexivity.
    + left. unfold neg64. rewrite wrap64_small; lia.
Qed.
End Pair.

#[local] Existing Instance Demo.hdr.

Lemma recorded_values_positive_witness :
  (latencyComp Demo.ascending Samples.day "A" "B").1.1 = [200]
  ∧ 0 < 200 < 2 ^ 63.
Proof.
  assert (E : (latencyComp Demo.ascending Samples.day "A" "B").1.1 = [200])
    by (vm_compute; reflexivity).
  split; [exact E|].
  apply (proj1 (recorded_values_positive Demo.ascending Samples.day "A" "B" 200)).
  rewrite E. apply list_elem_of_here.
Defined.
End LatencyMore.

(** ** The counters of the analyzer *)

Module StatsMore.
Import Go Common Entry Analyzer Stats AnalyzerProps.

Lemma wrap64_add_l x y : wrap64 (wrap64 x + y) = wrap64 (x + y).
Proof.
  unfold wrap64. f_equal.
  replace ((x + 2 ^ 63) mod 2 ^ 64 - 2 ^ 63 + y + 2 ^ 63)
    with ((x + 2 ^ 63) mod 2 ^ 64 + y) by ring.
  rewrite Zplus_mod_idemp_l. f_equal. ring.
Qed.

Lemma wrap64_add_r x y : wrap64 (x + wrap64 y) = wrap64 (x + y).
Proof. rewrite (Z.add_comm x), wrap64_add_l. f_equal. ring. Qed.

Lemma inc64_wrap n : inc64 (wrap64 n) = wrap64 (n + 1).
Proof. apply wrap64_add_l. Qed.

(** *** Order of strings *)

Lemma compare_le_trans s1 s2 s3 :
  String.compare s1 s2 ≠ Gt → String.compare s2 s3 ≠ Gt → String.compare s1 s3 ≠ Gt.
Proof.
  revert s2 s3. induction s1 as [|c1 s1 IH]; intros [|c2 s2] [|c3 s3]; simpl; try done.
  unfold Ascii.compare.
  destruct (N.compare_spec (N_of_ascii c1) (N_of_ascii c2)) as [H12|H12|H12];
    destruct (N.compare_spec (N_of_ascii c2) (N_of_ascii c3)) as [H23|H23|H23];
    destruct (N.compare_spec (N_of_ascii c1) (N_of_ascii c3)) as [H13|H13|H13];
    try done; try lia.
  apply IH.
Qed.

Lemma strLe_trans : Transitive strLe.
Proof.
  intros s1 s2 s3. unfold strLe, String.leb. intros H12 H23.
  pose proof (compare_le_trans s1 s2 s3) as Ht.
  destruct (String.compare s1 s2); destruct (String.compare s2 s3);
    destruct (String.compare s1 s3); try done; exfalso; by apply Ht.
Qed.

Lemma strLe_total : Total strLe.
Proof. intros s1 s2. apply String.leb_total. Qed.

#[local] Existing Instance strLe_trans.
#[local] Existing Instance strLe_total.

Lemma StronglySorted_strict {A} (R : relation A) (l : list A) :
  StronglySorted R l → NoDup l → StronglySorted (λ x y, R x y ∧ x ≠ y) l.
Proof.
  induction 1 as [|x l Hs IH Hx]; intros Hnd; [constructor|].
  apply NoDup_cons in Hnd as [Hnotin Hnd]. constructor; [by apply IH|].
  apply Forall_forall. intros y Hy. split.
  - by eapply Forall_forall in Hx.
  - intros ->. done.
Qed.

(** *** What the loops leave alone *)

Lemma countSources_fixed tx l a :
  nIncluded (foldl (countSource tx) a l) = nIncluded a
  ∧ nNotIncluded (foldl (countSource tx) a l) = nNotIncluded a
  ∧ timestampFirst (foldl (countSource tx) a l) = timestampFirst a
  ∧ timestampLast (foldl (countSource tx) a l) = timestampLast a.
Proof.
  revert a. induction l as [|s l IH]; intros a; simpl; [done|].
  destruct (IH (countSource tx a s)) as (-> & -> & -> & ->). done.
Qed.

Lemma countSources_not_single tx l a :
  length (Sources tx) ≠ 1%nat →
  nExclusiveOrderflow (foldl (countSource tx) a l) = nExclusiveOrderflow a
  ∧ nTxExclusiveIncludedCnt (foldl (countSource tx) a l) = nTxExclusiveIncludedCnt a
  ∧ nTxExclusiveNotIncludedCnt (foldl (countSource tx) a l)
    = nTxExclusiveNotIncludedCnt a
  ∧ nTxExclusiveIncluded (foldl (countSource tx) a l) = nTxExclusiveIncluded a.
Proof.
  intros Hlen. apply Nat.eqb_neq in Hlen.
  revert a. induction l as [|s l IH]; intros a; simpl; [done|].
  destruct (IH (countSource tx a s)) as (-> & -> & -> & ->). simpl. by rewrite Hlen.
Qed.

Lemma countSources_unique tx l a :
  nUniqueTransactions (foldl (countSource tx) a l) = nUniqueTransactions a.
Proof. revert a. induction l as [|s l IH]; intros a; simpl; [done|]. by rewrite IH. Qed.

Lemma nUnique_fold l a :
  nUniqueTransactions (foldl countTx a l) = nUniqueTransactions a.
Proof.
  revert a. induction l as [|kv l IH]; intros a; simpl; [done|].
  rewrite IH. unfold countTx. cbn [trackTimestamps nUniqueTransactions].
  by rewrite countSources_unique.
Qed.

(** *** One transaction *)

Lemma countTx_nIncluded a kv :
  nIncluded (countTx a kv)
  = if decide (onChain kv.2) then inc64 (nIncluded a) else nIncluded a.
Proof.
  unfold countTx. cbn [trackTimestamps nIncluded].
  destruct (countSources_fixed kv.2 (Sources kv.2) (countInclusion kv.2 a))
    as (-> & _). simpl. unfold onChain.
  destruct (Z.eqb_spec (IncludedAtBlockHeight kv.2) 0);
    [by rewrite decide_False by tauto|by rewrite decide_True].
Qed.

Lemma countTx_nNotIncluded a kv :
  nNotIncluded (countTx a kv)
  = if decide (¬ onChain kv.2) then inc64 (nNotIncluded a) else nNotIncluded a.
Proof.
  unfold countTx. cbn [trackTimestamps nNotIncluded].
  destruct (countSources_fixed kv.2 (Sources kv.2) (countInclusion kv.2 a))
    as (_ & -> & _). simpl. unfold onChain.
  destruct (Z.eqb_spec (IncludedAtBlockHeight kv.2) 0);
    [by rewrite decide_True by tauto|by rewrite decide_False by tauto].
Qed.

Lemma countTx_exclusive a kv :
  nExclusiveOrderflow (countTx a kv)
    = (if decide (exclusive kv.2) then inc64 (nExclusiveOrderflow a)
       else nExclusiveOrderflow a)
  ∧ nTxExclusiveIncludedCnt (countTx a kv)
    = (if decide (exclusive kv.2 ∧ onChain kv.2)
       then inc64 (nTxExclusiveIncludedCnt a) else nTxExclusiveIncludedCnt a)
  ∧ nTxExclusiveNotIncludedCnt (countTx a kv)
    = (if decide (exclusive kv.2 ∧ ¬ onChain kv.2)
       then inc64 (nTxExclusiveNotIncludedCnt a) else nTxExclusiveNotIncludedCnt a).
Proof.
  unfold countTx.
  cbn [trackTimestamps nExclusiveOrderflow nTxExclusiveIncludedCnt
       nTxExclusiveNotIncludedCnt].
  destruct (decide (exclusive kv.2)) as [Hex|Hex].
  - assert (∃ s, Sources kv.2 = [s]) as [s Hs].
    { unfold exclusive in Hex. destruct (Sources kv.2) as [|s [|s' l]]; try done.
      by exists s. }
    destruct (decide (onChain kv.2)) as [Hon|Hon].
    + rewrite decide_True, decide_False by tauto. rewrite Hs. simpl. rewrite Hs.
      simpl. by rewrite (proj2 (Z.eqb_neq _ _) Hon).
    + rewrite decide_False, decide_True by tauto. rewrite Hs. simpl. rewrite Hs.
      simpl. unfold onChain in Hon.
      by rewrite (proj2 (Z.eqb_eq _ _)) by (destruct (decide (IncludedAtBlockHeight kv.2 = 0)); tauto).
  - destruct (countSources_not_single kv.2 (Sources kv.2) (countInclusion kv.2 a) Hex)
      as (-> & -> & -> & _).
    rewrite !decide_False by tauto. done.
Qed.

(** *** A counter over all transactions *)

Lemma counter_fold (f : Analyzer2 → Z) (P Q : TxEntry → Prop)
    `{∀ tx, Decision (P tx)} :
  (∀ a kv, Q kv.2 →
     f (countTx a kv) = if decide (P kv.2) then inc64 (f a) else f a) →
  ∀ l a n, Forall (λ kv, Q kv.2) l → f a = wrap64 n →
    f (foldl countTx a l) = wrap64 (n + countIn P l).
Proof.
  intros Hstep. induction l as [|kv l IH]; intros a n HQ Ha; simpl.
  - rewrite Ha. f_equal. unfold countIn. simpl. lia.
  - apply Forall_cons in HQ as [Hkv HQ].
    unfold countIn. rewrite filter_cons. destruct (decide (P kv.2)) as [HP|HP].
    + rewrite (IH _ (n + 1)); [|done|].
      * f_equal. unfold countIn. simpl. lia.
      * by rewrite Hstep, decide_True, Ha, inc64_wrap.
    + rewrite (IH _ n); [done|done|]. by rewrite Hstep, decide_False.
Qed.

Lemma countIn_mapRange (rt : GoRuntime) (P : TxEntry → Prop) `{∀ tx, Decision (P tx)}
    (m : gmap string TxEntry) :
  countIn P (mapRange rt m) = countOf P m.
Proof.
  unfold countIn, countOf. f_equal. rewrite mapRange_perm.
  rewrite <- length_map_to_list. apply Permutation_length. symmetry.
  rewrite map_filter_alt. apply map_to_list_to_map.
  apply NoDup_fst_filter, NoDup_fst_map_to_list.
Qed.

Lemma countOf_bound (P : TxEntry → Prop) `{∀ tx, Decision (P tx)}
    (m : gmap string TxEntry) :
  0 ≤ countOf P m ≤ Z.of_nat (size m).
Proof.
  unfold countOf. split; [lia|]. apply Nat2Z.inj_le.
  apply (map_size_filter (λ kv : string * TxEntry, P kv.2)).
Qed.

Lemma countOf_complement (P : TxEntry → Prop) `{∀ tx, Decision (P tx)}
    (m : gmap string TxEntry) :
  countOf P m + countOf (λ tx, ¬ P tx) m = Z.of_nat (size m).
Proof.
  unfold countOf. rewrite <- Nat2Z.inj_add. f_equal.
  rewrite <- map_size_disj_union
    by apply (map_disjoint_filter_complement (λ kv : string * TxEntry, P kv.2)).
  f_equal. apply (map_filter_union_complement (λ kv : string * TxEntry, P kv.2)).
Qed.

Lemma countIn_split (P Q R : TxEntry → Prop) `{∀ tx, Decision (P tx)}
    `{∀ tx, Decision (Q tx)} `{∀ tx, Decision (R tx)} (l : list (string * TxEntry)) :
  (∀ tx, P tx ↔ (Q tx ∨ R tx)) → (∀ tx, Q tx → R tx → False) →
  countIn P l = countIn Q l + countIn R l.
Proof.
  intros Hor Hex. unfold countIn. induction l as [|kv l IH]; [done|].
  rewrite !filter_cons.
  destruct (decide (P kv.2)) as [HP|HP], (decide (Q kv.2)) as [HQ|HQ],
    (decide (R kv.2)) as [HR|HR]; simpl length;
    try lia; exfalso; specialize (Hor kv.2); specialize (Hex kv.2); tauto.
Qed.

(** *** Counters kept per source *)

Lemma getInt_incAt m s src :
  getInt (incAt m s) src
  = if decide (s = src) then inc64 (getInt m src) else getInt m src.
Proof.
  unfold incAt. destruct (decide (s = src)) as [->|Hne].
  - apply getInt_insert_eq.
  - by apply getInt_insert_ne.
Qed.

Lemma perSource_fold (g : Analyzer2 → gmap string Z) (c : bool) tx :
  (∀ a s, g (countSource tx a s) = if c then incAt (g a) s else g a) →
  ∀ l a src, NoDup l →
    getInt (g (foldl (countSource tx) a l)) src
    = if decide (c = true ∧ src ∈ l) then inc64 (getInt (g a) src)
      else getInt (g a) src.
Proof.
  intros Hg. induction l as [|s l IH]; intros a src Hnd; simpl.
  - rewrite decide_False; [done|]. intros [_ Hin]. by apply elem_of_nil in Hin.
  - apply NoDup_cons in Hnd as [Hs Hnd]. rewrite IH by done. rewrite Hg.
    destruct c.
    + rewrite getInt_incAt. destruct (decide (s = src)) as [->|Hne].
      * rewrite decide_False by tauto. rewrite decide_True; [done|].
        split; [done|]. apply elem_of_cons. by left.
      * destruct (decide (src ∈ l)) as [Hin|Hin].
        -- rewrite !decide_True; [done|..]; (split; [done|]); [|done].
           apply elem_of_cons. by right.
        -- rewrite !decide_False; [done|..].
           ++ intros [_ [?|?]%elem_of_cons]; [congruence|done].
           ++ tauto.
    + rewrite !decide_False; [done|..]; by intros [? _].
Qed.

Lemma countTx_perSource a kv src :
  NoDup (Sources kv.2) →
  getInt (nTransactionsPerSource (countTx a kv)) src
    = (if decide (src ∈ Sources kv.2)
       then inc64 (getInt (nTransactionsPerSource a) src)
       else getInt (nTransactionsPerSource a) src)
  ∧ getInt (nTxOnChainBySource (countTx a kv)) src
    = (if decide (src ∈ Sources kv.2 ∧ onChain kv.2)
       then inc64 (getInt (nTxOnChainBySource a) src)
       else getInt (nTxOnChainBySource a) src)
  ∧ getInt (nTxNotOnChainBySource (countTx a kv)) src
    = (if decide (src ∈ Sources kv.2 ∧ ¬ onChain kv.2)
       then inc64 (getInt (nTxNotOnChainBySource a) src)
       else getInt (nTxNotOnChainBySource a) src).
Proof.
  intros Hnd. unfold countTx.
  cbn [trackTimestamps nTransactionsPerSource nTxOnChainBySource
       nTxNotOnChainBySource].
  rewrite (perSource_fold nTransactionsPerSource true kv.2 (λ _ _, eq_refl)) by done.
  rewrite (perSource_fold nTxOnChainBySource
             (negb (IncludedAtBlockHeight kv.2 =? 0)) kv.2)
    by (done || (intros; simpl; by destruct (_ =? _))).
  rewrite (perSource_fold nTxNotOnChainBySource
             (IncludedAtBlockHeight kv.2 =? 0) kv.2)
    by (done || (intros; simpl; by destruct (_ =? _))).
  cbn [countInclusion nTransactionsPerSource nTxOnChainBySource
       nTxNotOnChainBySource].
  unfold onChain.
  destruct (Z.eqb_spec (IncludedAtBlockHeight kv.2) 0) as [Hz|Hz]; simpl;
    repeat split; repeat case_decide; try done; exfalso; tauto.
Qed.

Lemma balanced_countSource tx a s : balanced a → balanced (countSource tx a s).
Proof.
  intros Hb src. simpl.
  destruct (IncludedAtBlockHeight tx =? 0); rewrite !getInt_incAt;
    destruct (decide (s = src)); try apply Hb; unfold inc64.
  - rewrite wrap64_add_r, <- (Hb src), wrap64_add_l. f_equal. ring.
  - rewrite wrap64_add_l, <- (Hb src), wrap64_add_l. f_equal. ring.
Qed.

Lemma balanced_countSources tx l a :
  balanced a → balanced (foldl (countSource tx) a l).
Proof.
  revert a. induction l as [|s l IH]; intros a Hb; simpl; [done|].
  by apply IH, balanced_countSource.
Qed.

Lemma balanced_fold l a : balanced a → balanced (foldl countTx a l).
Proof.
  revert a. induction l as [|kv l IH]; intros a Hb; simpl; [done|].
  apply IH. intros src. unfold countTx.
  cbn [trackTimestamps nTransactionsPerSource nTxOnChainBySource
       nTxNotOnChainBySource].
  apply balanced_countSources. intros src'. apply Hb.
Qed.

(** *** Exclusive order flow per source *)

Lemma incExclusive_lookup m s b src b' :
  default 0 (default ∅ (incExclusive m s b !! src) !! b')
  = if decide (s = src ∧ b = b')
    then inc64 (default 0 (default ∅ (m !! src) !! b'))
    else default 0 (default ∅ (m !! src) !! b').
Proof.
  unfold incExclusive. destruct (decide (s = src)) as [->|Hs].
  - rewrite lookup_insert_eq. cbn [default from_option]. unfold id.
    destruct (decide (b = b')) as [->|Hb].
    + rewrite lookup_insert_eq. by rewrite decide_True.
    + rewrite lookup_insert_ne by done. rewrite decide_False by tauto. done.
  - rewrite lookup_insert_ne by done. rewrite decide_False by tauto. done.
Qed.

Lemma countTx_exclusiveOf a kv src b :
  exclusiveOf (countTx a kv) src b
  = if decide (Sources kv.2 = [src] ∧ bool_decide (onChain kv.2) = b)
    then inc64 (exclusiveOf a src b) else exclusiveOf a src b.
Proof.
  unfold exclusiveOf, countTx. cbn [trackTimestamps nTxExclusiveIncluded].
  destruct (decide (length (Sources kv.2) = 1%nat)) as [Hex|Hex].
  - assert (∃ s, Sources kv.2 = [s]) as [s Hs].
    { destruct (Sources kv.2) as [|s [|s' l]]; try done. by exists s. }
    rewrite Hs. simpl. rewrite Hs. simpl. rewrite incExclusive_lookup.
    assert (Hb : negb (IncludedAtBlockHeight kv.2 =? 0) = bool_decide (onChain kv.2)).
    { unfold onChain. destruct (Z.eqb_spec (IncludedAtBlockHeight kv.2) 0); simpl.
      - by rewrite bool_decide_eq_false_2 by tauto.
      - by rewrite bool_decide_eq_true_2. }
    rewrite Hb. destruct (decide (s = src)) as [->|Hne].
    + destruct (decide (bool_decide (onChain kv.2) = b)).
      * by rewrite !decide_True.
      * by rewrite !decide_False by tauto.
    + rewrite !decide_False; [done|..].
      * intros [[= ?] _]. done.
      * tauto.
  - destruct (countSources_not_single kv.2 (Sources kv.2) (countInclusion kv.2 a) Hex)
      as (_ & _ & _ & ->).
    rewrite decide_False; [done|]. intros [Hs _]. by rewrite Hs in Hex.
Qed.

(** *** First and last timestamp *)

Lemma countTx_timestamps a kv :
  timestampFirst (countTx a kv)
    = (if (timestampFirst a =? 0) || (EntryTimestamp kv.2 <? timestampFirst a)
       then EntryTimestamp kv.2 else timestampFirst a)
  ∧ timestampLast (countTx a kv)
    = (if (timestampLast a =? 0) || (timestampLast a <? EntryTimestamp kv.2)
       then EntryTimestamp kv.2 else timestampLast a).
Proof.
  unfold countTx. cbn [trackTimestamps timestampFirst timestampLast].
  destruct (countSources_fixed kv.2 (Sources kv.2) (countInclusion kv.2 a))
    as (_ & _ & -> & ->). done.
Qed.

Lemma timestamps_span l a :
  timestampFirst a = 0 → timestampLast a = 0 →
  Forall (λ kv, EntryTimestamp kv.2 ≠ 0) l → l ≠ [] →
  timestampFirst (foldl countTx a l) ≠ 0 ∧ timestampLast (foldl countTx a l) ≠ 0
  ∧ (∃ kv, kv ∈ l ∧ EntryTimestamp kv.2 = timestampFirst (foldl countTx a l))
  ∧ (∃ kv, kv ∈ l ∧ EntryTimestamp kv.2 = timestampLast (foldl countTx a l))
  ∧ Forall (λ kv, timestampFirst (foldl countTx a l) ≤ EntryTimestamp kv.2
                  ≤ timestampLast (foldl countTx a l)) l.
Proof.
  intros Hf Hl. induction l as [|x l IH] using rev_ind; [done|].
  intros [Hnz Hx]%Forall_app _. rewrite Forall_singleton in Hx.
  rewrite foldl_app. cbn [foldl].
  destruct (countTx_timestamps (foldl countTx a l) x) as [-> ->].
  destruct (decide (l = [])) as [->|Hne].
  - simpl. rewrite Hf, Hl. simpl. repeat split; try done.
    + exists x. split; [apply list_elem_of_singleton|]; done.
    + exists x. split; [apply list_elem_of_singleton|]; done.
    + constructor; [lia|constructor].
  - destruct (IH Hnz Hne)
      as (Hf0 & Hl0 & (kf & Hkf & Ekf) & (kl & Hkl & Ekl) & Hall).
    set (b := foldl countTx a l) in *.
    rewrite (proj2 (Z.eqb_neq _ _) Hf0), (proj2 (Z.eqb_neq _ _) Hl0). cbn [orb].
    destruct (Z.ltb_spec (EntryTimestamp x.2) (timestampFirst b));
      destruct (Z.ltb_spec (timestampLast b) (EntryTimestamp x.2));
      (split; [done|]); (split; [done|]);
      (split; [first [ exists x; split;
                         [apply elem_of_app; right; by apply list_elem_of_singleton
                         |done]
                     | exists kf; split; [apply elem_of_app; by left|done] ] |]);
      (split; [first [ exists x; split;
                         [apply elem_of_app; right; by apply list_elem_of_singleton
                         |done]
                     | exists kl; split; [apply elem_of_app; by left|done] ] |]);
      (apply Forall_app; split;
        [eapply Forall_impl; [exact Hall|]; simpl; intros; lia
        |constructor; [lia|constructor]]).
Qed.

(** *** The list of sources *)

Lemma dom_countSources tx l a src :
  is_Some (nTransactionsPerSource (foldl (countSource tx) a l) !! src)
  ↔ is_Some (nTransactionsPerSource a !! src) ∨ src ∈ l.
Proof.
  revert a. induction l as [|s l IH]; intros a; simpl.
  - split; [by left|]. intros [?|Hin]; [done|]. by apply elem_of_nil in Hin.
  - rewrite IH. simpl. unfold incAt. rewrite elem_of_cons.
    destruct (decide (s = src)) as [->|Hne].
    + rewrite lookup_insert_eq. split; [intros _; right; by left|eauto].
    + rewrite lookup_insert_ne by done. split; [tauto|].
      intros [?|[?|?]]; [tauto|congruence|tauto].
Qed.

Lemma dom_fold l a src :
  is_Some (nTransactionsPerSource (foldl countTx a l) !! src)
  ↔ is_Some (nTransactionsPerSource a !! src)
    ∨ ∃ kv, kv ∈ l ∧ src ∈ Sources kv.2.
Proof.
  revert a. induction l as [|kv l IH]; intros a; simpl.
  - split; [by left|]. intros [?|(kv & Hin & _)]; [done|]. by apply elem_of_nil in Hin.
  - rewrite IH. unfold countTx at 1. cbn [trackTimestamps nTransactionsPerSource].
    rewrite dom_countSources. cbn [countInclusion nTransactionsPerSource].
    split.
    + intros [[?|?]|(kv' & Hin & ?)]; [by left|right..].
      * exists kv. split; [apply elem_of_cons; by left|done].
      * exists kv'. split; [apply elem_of_cons; by right|done].
    + intros [?|(kv' & [->|Hin]%elem_of_cons & ?)]; [tauto|tauto|].
      right. by exists kv'.
Qed.

Lemma countSources_sources tx l a : sources (foldl (countSource tx) a l) = sources a.
Proof. revert a. induction l as [|s l IH]; intros a; simpl; [done|]. by rewrite IH. Qed.

Lemma nUnique_sources l a : sources (foldl countTx a l) = sources a.
Proof.
  revert a. induction l as [|kv l IH]; intros a; simpl; [done|].
  rewrite IH. unfold countTx. cbn [trackTimestamps sources].
  by rewrite countSources_sources.
Qed.

Section Counters.
Context (rt : GoRuntime) (opts : Analyzer2Opts).

Lemma counted (f : Analyzer2 → Z) (P Q : TxEntry → Prop) `{∀ tx, Decision (P tx)} :
  (∀ a kv, Q kv.2 →
     f (countTx a kv) = if decide (P kv.2) then inc64 (f a) else f a) →
  (∀ n a, f (setUnique n a) = f a) → f fresh = 0 →
  (∀ h tx, Transactions opts !! h = Some tx → Q tx) →
  Z.of_nat (size (Transactions opts)) < 2 ^ 63 →
  f (foldl countTx (setUnique (wrap64 (Z.of_nat (size (Transactions opts)))) fresh)
       (mapRange rt (Transactions opts)))
  = countOf P (Transactions opts).
Proof.
  intros Hstep Hset Hfresh HQ Hsize.
  rewrite (counter_fold f P Q Hstep _ _ 0).
  - rewrite countIn_mapRange. pose proof (countOf_bound P (Transactions opts)).
    apply wrap64_small. lia.
  - apply Forall_forall. intros [h tx] Hin%elem_of_mapRange. by eapply HQ.
  - by rewrite Hset, Hfresh.
Qed.

(** X16. With fewer than 2^63 transactions, [nIncluded] is the number of
    transactions with a non-zero block height, [nNotIncluded] the number
    of the others, and the two add up to [nUniqueTransactions], whatever
    the order the map is visited in. *)
Theorem inclusion_counts :
  Z.of_nat (size (Transactions opts)) < 2 ^ 63 →
  nIncluded (NewAnalyzer2 rt opts) = countOf onChain (Transactions opts)
  ∧ nNotIncluded (NewAnalyzer2 rt opts)
    = countOf (λ tx, ¬ onChain tx) (Transactions opts)
  ∧ nIncluded (NewAnalyzer2 rt opts) + nNotIncluded (NewAnalyzer2 rt opts)
    = nUniqueTransactions (NewAnalyzer2 rt opts).
Proof.
  intros Hsize. unfold NewAnalyzer2, init.
  cbn [setSortedSources nIncluded nNotIncluded nUniqueTransactions].
  assert (Hin := counted nIncluded onChain (λ _, True)
                   (λ a kv _, countTx_nIncluded a kv)
                   (λ _ _, eq_refl) eq_refl (λ _ _ _, I) Hsize).
  assert (Hout := counted nNotIncluded (λ tx, ¬ onChain tx) (λ _, True)
                    (λ a kv _, countTx_nNotIncluded a kv)
                    (λ _ _, eq_refl) eq_refl (λ _ _ _, I) Hsize).
  split; [exact Hin|]. split; [exact Hout|]. rewrite Hin, Hout.
  rewrite nUnique_fold. cbn [setUnique nUniqueTransactions].
  rewrite wrap64_small by lia. apply countOf_complement.
Qed.
(** X17. With fewer than 2^63 transactions, [nExclusiveOrderflow] is the
    number of transactions with exactly one source (the loop over the
    sources runs once for them), split by [nTxExclusiveIncludedCnt] and
    [nTxExclusiveNotIncludedCnt] into those with and without a block
    height. *)
Theorem exclusive_counts :
  Z.of_nat (size (Transactions opts)) < 2 ^ 63 →
  nExclusiveOrderflow (NewAnalyzer2 rt opts) = countOf exclusive (Transactions opts)
  ∧ nTxExclusiveIncludedCnt (NewAnalyzer2 rt opts)
    = countOf (λ tx, exclusive tx ∧ onChain tx) (Transactions opts)
  ∧ nTxExclusiveNotIncludedCnt (NewAnalyzer2 rt opts)
    = countOf (λ tx, exclusive tx ∧ ¬ onChain tx) (Transactions opts)
  ∧ nExclusiveOrderflow (NewAnalyzer2 rt opts)
    = nTxExclusiveIncludedCnt (NewAnalyzer2 rt opts)
      + nTxExclusiveNotIncludedCnt (NewAnalyzer2 rt opts).
Proof.
  intros Hsize. unfold NewAnalyzer2, init.
  cbn [setSortedSources nExclusiveOrderflow nTxExclusiveIncludedCnt
       nTxExclusiveNotIncludedCnt].
  assert (Hall := counted nExclusiveOrderflow exclusive (λ _, True)
                    (λ a kv _, proj1 (countTx_exclusive a kv))
                    (λ _ _, eq_refl) eq_refl (λ _ _ _, I) Hsize).
  assert (Hin := counted nTxExclusiveIncludedCnt
                   (λ tx, exclusive tx ∧ onChain tx) (λ _, True)
                   (λ a kv _, proj1 (proj2 (countTx_exclusive a kv)))
                   (λ _ _, eq_refl) eq_refl (λ _ _ _, I) Hsize).
  assert (Hout := counted nTxExclusiveNotIncludedCnt
                    (λ tx, exclusive tx ∧ ¬ onChain tx) (λ _, True)
                    (λ a kv _, proj2 (proj2 (countTx_exclusive a kv)))
                    (λ _ _, eq_refl) eq_refl (λ _ _ _, I) Hsize).
  rewrite Hall, Hin, Hout. repeat split.
  rewrite <- !(countIn_mapRange rt). apply countIn_split.
  - intros tx. destruct (decide (onChain tx)); tauto.
  - tauto.
Qed.

(** X18. With fewer than 2^63 transactions,
    [nTxExclusiveIncluded[src][b]] is the number of transactions whose only
    source is [src] and that are included ([b] true) or not ([b] false);
    it reads zero for a source with no such transaction. *)
Theorem exclusive_by_source (src : string) (b : bool) :
  Z.of_nat (size (Transactions opts)) < 2 ^ 63 →
  exclusiveOf (NewAnalyzer2 rt opts) src b
  = countOf (λ tx, Sources tx = [src] ∧ bool_decide (onChain tx) = b)
      (Transactions opts).
Proof.
  intros Hsize. unfold NewAnalyzer2, init, exclusiveOf.
  cbn [setSortedSources nTxExclusiveIncluded].
  exact (counted (λ a, exclusiveOf a src b)
           (λ tx, Sources tx = [src] ∧ bool_decide (onChain tx) = b) (λ _, True)
           (λ a kv _, countTx_exclusiveOf a kv src b)
           (λ _ _, eq_refl) eq_refl (λ _ _ _, I) Hsize).
Qed.

(** X19. For every source, the landed and the not landed count add up to
    the count of the source, in [int64] arithmetic; no condition on the
    data. *)
Theorem per_source_balance (src : string) :
  wrap64 (getInt (nTxOnChainBySource (NewAnalyzer2 rt opts)) src
          + getInt (nTxNotOnChainBySource (NewAnalyzer2 rt opts)) src)
  = getInt (nTransactionsPerSource (NewAnalyzer2 rt opts)) src.
Proof.
  unfold NewAnalyzer2, init.
  cbn [setSortedSources nTransactionsPerSource nTxOnChainBySource
       nTxNotOnChainBySource].
  apply balanced_fold. intros src'. reflexivity.
Qed.

(** X20. When no transaction lists a source twice and there are fewer
    than 2^63 transactions, the count of a source is the number of
    transactions that list it, and the landed and not landed counts are
    the numbers of those with and without a block height. *)
Theorem per_source_counts (src : string) :
  (∀ h tx, Transactions opts !! h = Some tx → NoDup (Sources tx)) →
  Z.of_nat (size (Transactions opts)) < 2 ^ 63 →
  getInt (nTransactionsPerSource (NewAnalyzer2 rt opts)) src
    = countOf (λ tx, src ∈ Sources tx) (Transactions opts)
  ∧ getInt (nTxOnChainBySource (NewAnalyzer2 rt opts)) src
    = countOf (λ tx, src ∈ Sources tx ∧ onChain tx) (Transactions opts)
  ∧ getInt (nTxNotOnChainBySource (NewAnalyzer2 rt opts)) src
    = countOf (λ tx, src ∈ Sources tx ∧ ¬ onChain tx) (Transactions opts).
Proof.
  intros Hnd Hsize. unfold NewAnalyzer2, init.
  cbn [setSortedSources nTransactionsPerSource nTxOnChainBySource
       nTxNotOnChainBySource].
  split; [|split].
  - exact (counted (λ a, getInt (nTransactionsPerSource a) src)
             (λ tx, src ∈ Sources tx) (λ tx, NoDup (Sources tx))
             (λ a kv H, proj1 (countTx_perSource a kv src H))
             (λ _ _, eq_refl) eq_refl Hnd Hsize).
  - exact (counted (λ a, getInt (nTxOnChainBySource a) src)
             (λ tx, src ∈ Sources tx ∧ onChain tx) (λ tx, NoDup (Sources tx))
             (λ a kv H, proj1 (proj2 (countTx_perSource a kv src H)))
             (λ _ _, eq_refl) eq_refl Hnd Hsize).
  - exact (counted (λ a, getInt (nTxNotOnChainBySource a) src)
             (λ tx, src ∈ Sources tx ∧ ¬ onChain tx) (λ tx, NoDup (Sources tx))
             (λ a kv H, proj2 (proj2 (countTx_perSource a kv src H)))
             (λ _ _, eq_refl) eq_refl Hnd Hsize).
Qed.

(** X21. The list of sources is in strictly ascending byte order, so
    without duplicates, and holds exactly the sources that some
    transaction lists. *)
Theorem sources_sorted_distinct :
  StronglySorted strLt (sources (NewAnalyzer2 rt opts))
  ∧ ∀ src, src ∈ sources (NewAnalyzer2 rt opts)
           ↔ ∃ h tx, Transactions opts !! h = Some tx ∧ src ∈ Sources tx.
Proof.
  unfold NewAnalyzer2, init. cbn [setSortedSources sources].
  rewrite nUnique_sources. cbn [setUnique fresh sources app].
  split.
  - apply StronglySorted_strict; [apply (StronglySorted_merge_sort strLe)|].
    unfold SortStrings. rewrite merge_sort_Permutation. apply NoDup_mapRange.
  - intros src. unfold SortStrings. rewrite merge_sort_Permutation.
    rewrite list_elem_of_fmap. split.
    + intros ([k v] & -> & Hin%elem_of_mapRange). simpl in Hin.
      assert (Hsome : is_Some
                (nTransactionsPerSource
                   (foldl countTx
                      (setUnique (wrap64 (Z.of_nat (size (Transactions opts)))) fresh)
                      (mapRange rt (Transactions opts))) !! k)) by eauto.
      apply dom_fold in Hsome as [[? Hempty]|([h tx] & Hkv%elem_of_mapRange & Hs)].
      * simpl in Hempty. by rewrite lookup_empty in Hempty.
      * by exists h, tx.
    + intros (h & tx & Hh & Hs).
      assert (Hsome : is_Some
                (nTransactionsPerSource
                   (foldl countTx
                      (setUnique (wrap64 (Z.of_nat (size (Transactions opts)))) fresh)
                      (mapRange rt (Transactions opts))) !! src)).
      { apply dom_fold. right. exists (h, tx). split; [|done].
        by apply elem_of_mapRange. }
      destruct Hsome as [v Hv]. exists (src, v). split; [done|].
      by apply elem_of_mapRange.
Qed.

(** X22. When no transaction has the timestamp 0, [timestampFirst] and
    [timestampLast] are the smallest and the largest timestamp of the
    transactions, whatever the order the map is visited in: each is the
    timestamp of some transaction and every transaction lies between
    them. *)
Theorem first_and_last_timestamps (h : string) (tx : TxEntry) :
  (∀ h' tx', Transactions opts !! h' = Some tx' → EntryTimestamp tx' ≠ 0) →
  Transactions opts !! h = Some tx →
  timestampFirst (NewAnalyzer2 rt opts) ≤ EntryTimestamp tx
    ≤ timestampLast (NewAnalyzer2 rt opts)
  ∧ (∃ h1 tx1, Transactions opts !! h1 = Some tx1
               ∧ EntryTimestamp tx1 = timestampFirst (NewAnalyzer2 rt opts))
  ∧ (∃ h2 tx2, Transactions opts !! h2 = Some tx2
               ∧ EntryTimestamp tx2 = timestampLast (NewAnalyzer2 rt opts)).
Proof.
  intros Hnz Hh. unfold NewAnalyzer2, init.
  cbn [setSortedSources timestampFirst timestampLast].
  assert (Hin : (h, tx) ∈ mapRange rt (Transactions opts)) by by apply elem_of_mapRange.
  destruct (timestamps_span (mapRange rt (Transactions opts))
              (setUnique (wrap64 (Z.of_nat (size (Transactions opts)))) fresh))
    as (_ & _ & ([h1 tx1] & H1 & E1) & ([h2 tx2] & H2 & E2) & Hall);
    [done|done| | |].
  - apply Forall_forall. intros [h' tx'] Hin'%elem_of_mapRange. by eapply Hnz.
  - intros Hnil. rewrite Hnil in Hin. by apply elem_of_nil in Hin.
  - split; [|split].
    + rewrite Forall_forall in Hall. exact (Hall (h, tx) Hin).
    + exists h1, tx1. split; [by apply elem_of_mapRange in H1|done].
    + exists h2, tx2. split; [by apply elem_of_mapRange in H2|done].
Qed.
End Counters.

Lemma inclusion_counts_witness :
  Z.of_nat (size (Transactions Samples.day)) < 2 ^ 63
  ∧ nIncluded (NewAnalyzer2 Demo.descending Samples.day) = 2
  ∧ nNotIncluded (NewAnalyzer2 Demo.descending Samples.day) = 1
  ∧ nIncluded (NewAnalyzer2 Demo.descending Samples.day)
    = countOf onChain (Transactions Samples.day).
Proof.
  split; [vm_compute; reflexivity|]. split; [vm_compute; reflexivity|].
  split; [vm_compute; reflexivity|].
  apply (inclusion_counts Demo.descending Samples.day). vm_compute. reflexivity.
Defined.

Lemma exclusive_counts_witness :
  nExclusiveOrderflow (NewAnalyzer2 Demo.ascending Samples.day) = 2
  ∧ nTxExclusiveIncludedCnt (NewAnalyzer2 Demo.ascending Samples.day) = 1
  ∧ nTxExclusiveNotIncludedCnt (NewAnalyzer2 Demo.ascending Samples.day) = 1
  ∧ nExclusiveOrderflow (NewAnalyzer2 Demo.ascending Samples.day)
    = countOf exclusive (Transactions Samples.day).
Proof.
  split; [vm_compute; reflexivity|]. split; [vm_compute; reflexivity|].
  split; [vm_compute; reflexivity|].
  apply (exclusive_counts Demo.ascending Samples.day). vm_compute. reflexivity.
Defined.

Lemma exclusive_by_source_witness :
  exclusiveOf (NewAnalyzer2 Demo.ascending Samples.day) "B" false = 1
  ∧ exclusiveOf (NewAnalyzer2 Demo.ascending Samples.day) "B" false
    = countOf (λ tx, Sources tx = ["B"] ∧ bool_decide (onChain tx) = false)
        (Transactions Samples.day).
Proof.
  split; [vm_compute; reflexivity|].
  apply (exclusive_by_source Demo.ascending Samples.day "B" false).
  vm_compute. reflexivity.
Defined.

Lemma per_source_counts_witness :
  getInt (nTransactionsPerSource (NewAnalyzer2 Demo.ascending Samples.day)) "A" = 2
  ∧ getInt (nTransactionsPerSource (NewAnalyzer2 Demo.ascending Samples.day)) "A"
    = countOf (λ tx, "A" ∈ Sources tx) (Transactions Samples.day).
Proof.
  split; [vm_compute; reflexivity|].
  apply (per_source_counts Demo.ascending Samples.day "A").
  - apply (bool_decide_unpack
             (map_Forall (λ _ tx, NoDup (Sources tx)) (Transactions Samples.day))).
    vm_compute. exact I.
  - vm_compute. reflexivity.
Defined.

Lemma first_and_last_timestamps_witness :
  timestampFirst (NewAnalyzer2 Demo.descending Samples.day) = 900
  ∧ timestampLast (NewAnalyzer2 Demo.descending Samples.day) = 1100
  ∧ timestampFirst (NewAnalyzer2 Demo.descending Samples.day) ≤ 1000
    ≤ timestampLast (NewAnalyzer2 Demo.descending Samples.day).
Proof.
  split; [vm_compute; reflexivity|]. split; [vm_compute; reflexivity|].
  apply (first_and_last_timestamps Demo.descending Samples.day Demo.H1
           (Samples.entry Demo.H1 1000 ["A"; "B"] 17)).
  - apply (bool_decide_unpack
             (map_Forall (λ _ tx, EntryTimestamp tx ≠ 0) (Transactions Samples.day))).
    vm_compute. exact I.
  - vm_compute. reflexivity.
Defined.
End StatsMore.
